(** * jarvis-acsia: the client-side synchronisation and caching layer

    A shallow embedding of

    - [services/newsCache.ts]  ([deriveUserId], [getCachedNews],
      [setCachedNews], [clearCachedNews], [cacheAgeMinutes]),
    - [services/graph.ts]      ([getTodoLists], [getTasksForList],
      [getTodoItems], [createTodoTask], [updateTodoTask], [deleteTodoTask]),
    - [hooks/useTodos.ts]      ([toggleTodo], [addTodo], [deleteTodo]),
    - [hooks/useNewsData.ts]   ([fetchNews], [generateTopicsAndFetch]),

    followed by the properties of the specification that concern them.

    JavaScript strings are sequences of UTF-16 code units, the browser's
    [localStorage] is a finite map from strings to strings, and the
    asynchronous code is written in a state-and-exception monad over a
    [World] that holds the storage, the React state, the number of clock
    readings and the trace of the effects performed so far.  What the
    browser and the remote services answer is not decided by the program:
    it is collected in a record of oracles, [Env], over which everything
    is parameterised.

    What the model leaves out:
    - an [async] function runs from its call to its end without another
      one running in between, so the collection a handler of [useTodos]
      closes over is the collection of the state when it is called;
    - [localStorage] itself is always reachable (only [setItem] may
      refuse a value);
    - [JSON.parse] is read at the type the source casts its result to: a
      text either is a [SyntaxError] or denotes a cache entry;
    - time is the sequence of clock readings and the order of the
      effects, a pause being the effect [EvDelay];
    - what is written to the console. *)

From Stdlib Require Import ZArith NArith List Bool Ascii String Lia DecimalString.
From stdpp Require Import base option list gmap.
Import ListNotations.

Local Open Scope N_scope.

(* ===================================================================== *)
(** * JavaScript strings *)
(* ===================================================================== *)

(** A JavaScript string is a sequence of UTF-16 code units. *)
Definition jsstring : Type := list N.

(** A string literal of the source (all of them are ASCII). *)
Definition lit (s : string) : jsstring :=
  map N_of_ascii (list_ascii_of_string s).

(** Truthiness of a string value: the empty string is falsy. *)
Definition truthy (s : jsstring) : bool :=
  match s with
  | [] => false
  | _ :: _ => true
  end.

(** [a ?? b] on a value that may be [undefined]. *)
Definition nullish {A : Type} (a : option A) (b : A) : A :=
  match a with
  | Some x => x
  | None => b
  end.

(** [===] on strings. *)
Definition str_eqb (a b : jsstring) : bool := bool_decide (a = b).

(** White space and line terminators, as [String.prototype.trim] sees them. *)
Definition is_white_space (c : N) : bool :=
  (c =? 9) || (c =? 10) || (c =? 11) || (c =? 12) || (c =? 13) || (c =? 32)
  || (c =? 160) || (c =? 5760) || ((8192 <=? c) && (c <=? 8202))
  || (c =? 8232) || (c =? 8233) || (c =? 8239) || (c =? 8287)
  || (c =? 12288) || (c =? 65279).

Fixpoint trim_start (s : jsstring) : jsstring :=
  match s with
  | [] => []
  | c :: r => if is_white_space c then trim_start r else s
  end.

Definition trim (s : jsstring) : jsstring :=
  rev (trim_start (rev (trim_start s))).

(** [parts.join(sep)]. *)
Fixpoint join (sep : jsstring) (parts : list jsstring) : jsstring :=
  match parts with
  | [] => []
  | [p] => p
  | p :: rest => p ++ sep ++ join sep rest
  end.

(* ===================================================================== *)
(** * [btoa]: base64 of a Latin-1 string *)
(* ===================================================================== *)

Module Base64.

(** The code unit of the [n]-th symbol of the alphabet
    [A-Z a-z 0-9 + /]. *)
Definition symbol (n : N) : N :=
  if n <? 26 then 65 + n
  else if n <? 52 then 97 + (n - 26)
  else if n <? 62 then 48 + (n - 52)
  else if n =? 62 then 43
  else 47.

Definition pad : N := 61.

(** The value of a symbol; [None] outside the alphabet. *)
Definition value (c : N) : option N :=
  if (65 <=? c) && (c <=? 90) then Some (c - 65)
  else if (97 <=? c) && (c <=? 122) then Some (c - 97 + 26)
  else if (48 <=? c) && (c <=? 57) then Some (c - 48 + 52)
  else if c =? 43 then Some 62
  else if c =? 47 then Some 63
  else None.

Definition is_symbol (c : N) : bool :=
  match value c with
  | Some _ => true
  | None => c =? pad
  end.

(** Three octets become four symbols; a last group of one or two octets
    is padded with [=]. *)
Fixpoint encode (l : list N) : list N :=
  match l with
  | [] => []
  | [a] => [symbol (a / 4); symbol ((a mod 4) * 16); pad; pad]
  | [a; b] =>
      [symbol (a / 4); symbol ((a mod 4) * 16 + b / 16);
       symbol ((b mod 16) * 4); pad]
  | a :: b :: c :: rest =>
      symbol (a / 4) :: symbol ((a mod 4) * 16 + b / 16)
      :: symbol ((b mod 16) * 4 + c / 64) :: symbol (c mod 64)
      :: encode rest
  end.

(** The inverse reading, four symbols at a time. *)
Fixpoint decode (l : list N) : option (list N) :=
  match l with
  | [] => Some []
  | [s1; s2; p1; p2] =>
      match value s1, value s2 with
      | Some v1, Some v2 =>
          if (p1 =? pad) && (p2 =? pad) then Some [v1 * 4 + v2 / 16]
          else
            match value p1 with
            | Some v3 =>
                if p2 =? pad
                then Some [v1 * 4 + v2 / 16; (v2 mod 16) * 16 + v3 / 4]
                else
                  match value p2 with
                  | Some v4 =>
                      Some [v1 * 4 + v2 / 16; (v2 mod 16) * 16 + v3 / 4;
                            (v3 mod 4) * 64 + v4]
                  | None => None
                  end
            | None => None
            end
      | _, _ => None
      end
  | s1 :: s2 :: s3 :: s4 :: rest =>
      match value s1, value s2, value s3, value s4, decode rest with
      | Some v1, Some v2, Some v3, Some v4, Some r =>
          Some (v1 * 4 + v2 / 16 :: (v2 mod 16) * 16 + v3 / 4
                :: (v3 mod 4) * 64 + v4 :: r)
      | _, _, _, _, _ => None
      end
  | _ => None
  end.

(** A code unit that fits one octet. *)
Definition latin1 (c : N) : bool := c <=? 255.

End Base64.

(** [btoa(s)]: the base64 text of [s], or an [InvalidCharacterError]
    ([None]) when some code unit of [s] is above U+00FF. *)
Definition btoa (s : jsstring) : option jsstring :=
  if forallb Base64.latin1 s then Some (Base64.encode s) else None.

(* ===================================================================== *)
(** * newsCache.ts, part one: the cache key of a user *)
(* ===================================================================== *)

Definition getCacheKey (userId : jsstring) : jsstring :=
  lit "news_cache_" ++ userId.

(** [deriveUserId(msalHomeAccountId?, jobTitle?, department?)]. *)
Definition deriveUserId
    (msalHomeAccountId jobTitle department : option jsstring) : jsstring :=
  let fallback :=
    let raw :=
      nullish jobTitle (lit "unknown") ++ lit "|"
        ++ nullish department (lit "unknown") in
    match btoa raw with
    | Some key => key
    | None => lit "guest"
    end in
  match msalHomeAccountId with
  | Some id => if truthy id then id else fallback
  | None => fallback
  end.

(* ===================================================================== *)
(** * Data model *)
(* ===================================================================== *)

Local Open Scope Z_scope.

(** [api.ts]: an article of the feed. *)
Record Article := {
  title : jsstring;
  description : jsstring;
  url : jsstring;
  urlToImage : option jsstring;
  sourceName : jsstring;
  publishedAt : jsstring
}.

(** [api.ts]: the part of a profile the feed uses. *)
Record UserProfile := {
  jobTitle : jsstring;
  department : jsstring
}.

(** [newsCache.ts]: the record kept per user. [cachedAt] is in epoch
    milliseconds. *)
Record NewsCacheEntry := {
  articles : list Article;
  topics : list jsstring;
  cachedAt : Z;
  entryUserId : jsstring
}.

Definition CACHE_TTL_MS : Z := 2 * 60 * 60 * 1000.

(** [graph.ts]: the [status] of a task. *)
Inductive TaskStatus :=
| notStarted | inProgress | completed | deferred | waitingOnOthers.

Definition status_eqb (a b : TaskStatus) : bool :=
  match a, b with
  | notStarted, notStarted | inProgress, inProgress | completed, completed
  | deferred, deferred | waitingOnOthers, waitingOnOthers => true
  | _, _ => false
  end.

Record DateTimeTimeZone := {
  dateTime : jsstring;
  timeZone : jsstring
}.

(** A task as the Graph API sends it. *)
Record GraphTask := {
  gt_id : jsstring;
  gt_title : jsstring;
  gt_status : TaskStatus;
  gt_dueDateTime : option DateTimeTimeZone;
  gt_createdDateTime : jsstring;
  gt_importance : jsstring
}.

(** [graph.ts]: [TodoTask], a Graph task with the list it came from. *)
Record TodoTask := {
  task_id : jsstring;
  task_listId : jsstring;
  task_listName : jsstring;
  task_wellknownListName : jsstring;
  task_title : jsstring;
  task_status : TaskStatus;
  task_dueDateTime : option DateTimeTimeZone;
  task_createdDateTime : jsstring;
  task_importance : jsstring
}.

(** [graph.ts]: [TodoList]. *)
Record TodoList := {
  list_id : jsstring;
  displayName : jsstring;
  wellknownListName : jsstring
}.

(** [AppContext.tsx]: an item of the task panel.  [loadUserData] also
    stores the two list names on the items it builds, [addTodo] does
    not. *)
Record TodoItem := {
  id : jsstring;
  listId : jsstring;
  listName : option jsstring;
  item_wellknownListName : option jsstring;
  text : jsstring;
  done : bool
}.

(** [{ ...t, done: d }] *)
Definition set_done (d : bool) (t : TodoItem) : TodoItem :=
  {| id := id t; listId := listId t; listName := listName t;
     item_wellknownListName := item_wellknownListName t;
     text := text t; done := d |}.

(** The two queries [getTasksForList] sends for a list. *)
Inductive TaskQuery :=
| NotCompleted      (* $filter=status ne 'completed', createdDateTime asc *)
| RecentlyCompleted (* $filter=status eq 'completed', lastModified desc, $top=20 *).

(** What a [fetch] of tasks followed by [.json()] gives: a rejection, or
    a body whose [value] field may be missing. *)
Inductive TasksResponse :=
| Rejected
| Body (value : option (list GraphTask)).

(** The effects a run performs, in the order it performs them: requests
    to the remote services, timers, and publications of React state. *)
Inductive Event :=
| EvGetLists
| EvGetTasks (listId : jsstring) (q : TaskQuery)
| EvCreateTask (listId title : jsstring)
| EvUpdateTask (listId taskId : jsstring) (status : TaskStatus)
| EvDeleteTask (listId taskId : jsstring)
| EvGenerateTopics (jobTitle department : jsstring)
| EvGetNews (q role : jsstring)
| EvDelay (ms : Z)
| EvSetTodos (items : list TodoItem)
| EvSetNews (items : list Article)
| EvSetLoading (b : bool)
| EvSetApiError (e : option jsstring).

(** A request leaves the browser. *)
Definition is_request (e : Event) : bool :=
  match e with
  | EvGetLists | EvGetTasks _ _ | EvCreateTask _ _ | EvUpdateTask _ _ _
  | EvDeleteTask _ _ | EvGenerateTopics _ _ | EvGetNews _ _ => true
  | _ => false
  end.

(** ** The environment

    Everything the program asks of the browser and of the network.  The
    remote answers may depend on the whole history of effects. *)
Record Env := {
  (** the [n]-th reading of the clock ([Date.now()], [new Date()]) *)
  clock : nat -> Z;
  (** [new Date(s).getTime()]; [None] for an invalid date *)
  Date_parse : jsstring -> option Z;
  (** [JSON.stringify] of a cache entry *)
  JSON_stringify : NewsCacheEntry -> jsstring;
  (** [JSON.parse] read at type [NewsCacheEntry], to which the source
      casts its result; [None] is a [SyntaxError] *)
  JSON_parse : jsstring -> option NewsCacheEntry;
  (** whether [localStorage.setItem] takes the value (quota, private
      browsing) *)
  storage_accepts : gmap jsstring jsstring -> jsstring -> jsstring -> bool;
  (** [await import("../services/graph")] resolves *)
  import_resolves : list Event -> bool;
  (** MSAL hands out an access token *)
  acquireToken : list Event -> option jsstring;
  (** GET /me/todo/lists: [None] when the request fails or is not ok,
      otherwise the [value] field, which may be missing *)
  graph_lists : list Event -> option (option (list TodoList));
  (** GET /me/todo/lists/{id}/tasks *)
  graph_tasks : list Event -> jsstring -> TaskQuery -> TasksResponse;
  (** POST a task: the created task, [None] on failure *)
  graph_create : list Event -> jsstring -> jsstring -> option GraphTask;
  (** PATCH a task *)
  graph_update : list Event -> jsstring -> jsstring -> TaskStatus -> bool;
  (** DELETE a task *)
  graph_delete : list Event -> jsstring -> jsstring -> bool;
  (** POST /api/generate-topics: [None] on failure, otherwise [queries] *)
  api_topics : list Event -> jsstring -> jsstring
               -> option (option (list jsstring));
  (** GET /api/news: [None] on failure, otherwise [articles] *)
  api_news : list Event -> jsstring -> jsstring
             -> option (option (list Article))
}.

(** ** The world a run acts on *)
Record World := {
  localStorage : gmap jsstring jsstring;
  todos : list TodoItem;
  news : list Article;
  loading : bool;
  apiError : option jsstring;
  userId : jsstring;
  ticks : nat;
  trace : list Event
}.

Definition with_storage (m : gmap jsstring jsstring) (w : World) : World :=
  {| localStorage := m; todos := todos w; news := news w;
     loading := loading w; apiError := apiError w; userId := userId w;
     ticks := ticks w; trace := trace w |}.

Definition with_todos (l : list TodoItem) (w : World) : World :=
  {| localStorage := localStorage w; todos := l; news := news w;
     loading := loading w; apiError := apiError w; userId := userId w;
     ticks := ticks w; trace := trace w |}.

Definition with_news (l : list Article) (w : World) : World :=
  {| localStorage := localStorage w; todos := todos w; news := l;
     loading := loading w; apiError := apiError w; userId := userId w;
     ticks := ticks w; trace := trace w |}.

Definition with_loading (b : bool) (w : World) : World :=
  {| localStorage := localStorage w; todos := todos w; news := news w;
     loading := b; apiError := apiError w; userId := userId w;
     ticks := ticks w; trace := trace w |}.

Definition with_apiError (e : option jsstring) (w : World) : World :=
  {| localStorage := localStorage w; todos := todos w; news := news w;
     loading := loading w; apiError := e; userId := userId w;
     ticks := ticks w; trace := trace w |}.

Definition tick (w : World) : World :=
  {| localStorage := localStorage w; todos := todos w; news := news w;
     loading := loading w; apiError := apiError w; userId := userId w;
     ticks := S (ticks w); trace := trace w |}.

Definition log (e : Event) (w : World) : World :=
  {| localStorage := localStorage w; todos := todos w; news := news w;
     loading := loading w; apiError := apiError w; userId := userId w;
     ticks := ticks w; trace := trace w ++ [e] |}.

(* ===================================================================== *)
(** * The monad of the asynchronous code *)
(* ===================================================================== *)

(** A computation returns or throws; the world it leaves is kept in both
    cases (JavaScript undoes nothing on an exception). *)
Inductive Outcome (A : Type) :=
| Returned (a : A)
| Thrown.
Arguments Returned {A} a.
Arguments Thrown {A}.

Definition Eff (A : Type) : Type := World -> Outcome A * World.

Global Instance Eff_ret : MRet Eff := fun A a w => (Returned a, w).

Global Instance Eff_bind : MBind Eff :=
  fun A B k m w =>
    match m w with
    | (Returned a, w') => k a w'
    | (Thrown, w') => (Thrown, w')
    end.

Definition throw {A} : Eff A := fun w => (Thrown, w).

(** [try { m } catch { h }] *)
Definition try_catch {A} (m : Eff A) (h : Eff A) : Eff A :=
  fun w =>
    match m w with
    | (Returned a, w') => (Returned a, w')
    | (Thrown, w') => h w'
    end.

(** [try { m } finally { f }] *)
Definition try_finally {A} (m : Eff A) (f : Eff unit) : Eff A :=
  fun w =>
    match m w with
    | (r, w') =>
        match f w' with
        | (Returned _, w'') => (r, w'')
        | (Thrown, w'') => (Thrown, w'')
        end
    end.

Definition get {A} (f : World -> A) : Eff A := fun w => (Returned (f w), w).

Definition modify (f : World -> World) : Eff unit :=
  fun w => (Returned tt, f w).

Definition emit (e : Event) : Eff unit := modify (log e).

(** An optional value that throws when it is missing. *)
Definition orThrow {A} (o : option A) : Eff A :=
  match o with
  | Some a => mret a
  | None => throw
  end.

(** The world a computation leaves and the value it returns. *)
Definition exec {A} (m : Eff A) (w : World) : World := snd (m w).
Definition result {A} (m : Eff A) (w : World) : Outcome A := fst (m w).

(** ** React state *)

Definition setTodos (f : list TodoItem -> list TodoItem) : Eff unit :=
  prev ← get todos;
  modify (with_todos (f prev));;
  emit (EvSetTodos (f prev)).

Definition setNews (a : list Article) : Eff unit :=
  modify (with_news a) ;; emit (EvSetNews a).

Definition setLoading (b : bool) : Eff unit :=
  modify (with_loading b) ;; emit (EvSetLoading b).

Definition setApiError (e : option jsstring) : Eff unit :=
  modify (with_apiError e) ;; emit (EvSetApiError e).

Definition msPerDay : Z := 86400000.

(** [d.setUTCHours(0, 0, 0, 0)] and [d.setUTCHours(23, 59, 59, 999)] on a
    date whose time value is [t]. *)
Definition setUTCHours_0_0_0_0 (t : Z) : Z := t / msPerDay * msPerDay.
Definition setUTCHours_23_59_59_999 (t : Z) : Z :=
  t / msPerDay * msPerDay + (msPerDay - 1).

(** [a <= b] and [a >= b] on dates, the left one possibly invalid (its
    time value is NaN, and every comparison with NaN is false). *)
Definition date_le (a : option Z) (b : Z) : bool :=
  match a with
  | Some x => x <=? b
  | None => false
  end.

Definition date_ge (a : option Z) (b : Z) : bool :=
  match a with
  | Some x => b <=? x
  | None => false
  end.

(** What [getTodoItems] resolves to. *)
Record TodoItems := {
  tasks : list TodoTask;
  lists : list TodoList
}.

(** How a read of the cache ended: the four [return]s of
    [getCachedNews]. *)
Inductive CacheRead :=
| Missing                      (* [if (!raw) return null] *)
| Evicted                      (* the record was stale and is removed *)
| Fresh (e : NewsCacheEntry)   (* [return entry] *)
| Unreadable                   (* the [catch] *).

Definition entry_of (r : CacheRead) : option NewsCacheEntry :=
  match r with
  | Fresh e => Some e
  | _ => None
  end.

(* ===================================================================== *)
(** * The program *)
(* ===================================================================== *)

Section Program.

Variable env : Env.

(** [Date.now()], [new Date()]: the next reading of the clock. *)
Definition Date_now : Eff Z :=
  n ← get ticks;
  modify tick;;
  mret (clock env n).

(** [setTimeout] wrapped in a promise. *)
Definition delay (ms : Z) : Eff unit := emit (EvDelay ms).

(** A request: it is recorded, and the environment answers from the
    history before it. *)
Definition request {A} (e : Event) (answer : list Event -> option A)
  : Eff A :=
  h ← get trace;
  emit e;;
  orThrow (answer h).

(** ** localStorage *)

Definition getItem (key : jsstring) : Eff (option jsstring) :=
  get (fun w => localStorage w !! key).

Definition setItem (key value : jsstring) : Eff unit :=
  m ← get localStorage;
  if storage_accepts env m key value
  then modify (with_storage (<[key := value]> m))
  else throw.

Definition removeItem (key : jsstring) : Eff unit :=
  m ← get localStorage;
  modify (with_storage (delete key m)).

(** ** newsCache.ts *)

(** The body of [getCachedNews], which also tells which of its [return]s
    was taken. *)
Definition readCache (userId : jsstring) : Eff CacheRead :=
  try_catch
    (let key := getCacheKey userId in
     raw ← getItem key;
     match raw with
     | None => mret Missing
     | Some raw =>
         if negb (truthy raw) then mret Missing
         else
           entry ← orThrow (JSON_parse env raw);
           now ← Date_now;
           if now - cachedAt entry >? CACHE_TTL_MS
           then removeItem key;; mret Evicted
           else mret (Fresh entry)
     end)
    (mret Unreadable).

Definition getCachedNews (userId : jsstring)
  : Eff (option NewsCacheEntry) :=
  r ← readCache userId;
  mret (entry_of r).

Definition setCachedNews (userId : jsstring) (arts : list Article)
    (tops : list jsstring) : Eff unit :=
  try_catch
    (now ← Date_now;
     let entry :=
       {| articles := arts; topics := tops; cachedAt := now;
          entryUserId := userId |} in
     setItem (getCacheKey userId) (JSON_stringify env entry))
    (mret tt).

Definition clearCachedNews (userId : jsstring) : Eff unit :=
  try_catch (removeItem (getCacheKey userId)) (mret tt).

Definition cacheAgeMinutes (userId : jsstring) : Eff Z :=
  try_catch
    (raw ← getItem (getCacheKey userId);
     match raw with
     | None => mret 0
     | Some raw =>
         if negb (truthy raw) then mret 0
         else
           entry ← orThrow (JSON_parse env raw);
           now ← Date_now;
           let remainingMs := CACHE_TTL_MS - (now - cachedAt entry) in
           mret (Z.max 0 (remainingMs / 60000))
     end)
    (mret 0).

(** ** graph.ts *)

Definition getAccessToken : Eff jsstring :=
  h ← get trace;
  orThrow (acquireToken env h).

Definition getTodoLists : Eff (list TodoList) :=
  try_catch
    (token ← getAccessToken;
     data ← request EvGetLists (graph_lists env);
     mret (nullish data []))
    (mret []).

Definition mapTask (listId listName wellknown : jsstring) (t : GraphTask)
  : TodoTask :=
  {| task_id := gt_id t; task_listId := listId;
     task_listName := listName; task_wellknownListName := wellknown;
     task_title := gt_title t; task_status := gt_status t;
     task_dueDateTime := gt_dueDateTime t;
     task_createdDateTime := gt_createdDateTime t;
     task_importance := gt_importance t |}.

(** The two filters of [getTasksForList]. *)
Definition relevantNotCompleted (todayEnd : Z) (task : TodoTask) : bool :=
  match task_dueDateTime task with
  | None =>
      let created := Date_parse env (task_createdDateTime task) in
      date_le created todayEnd
  | Some d =>
      let due := Date_parse env (dateTime d ++ lit "Z") in
      date_le due todayEnd
  end.

Definition completedToday (todayStart todayEnd : Z) (task : TodoTask)
  : bool :=
  let modified := Date_parse env (task_createdDateTime task) in
  date_ge modified todayStart && date_le modified todayEnd.

Definition getTasksForList (listId listName wellknown : jsstring)
  : Eff (list TodoTask) :=
  try_catch
    (token ← getAccessToken;
     t0 ← Date_now;
     let todayStart := setUTCHours_0_0_0_0 t0 in
     t1 ← Date_now;
     let todayEnd := setUTCHours_23_59_59_999 t1 in
     (* both requests leave before either is awaited *)
     h1 ← get trace;
     emit (EvGetTasks listId NotCompleted);;
     h2 ← get trace;
     emit (EvGetTasks listId RecentlyCompleted);;
     match graph_tasks env h1 listId NotCompleted,
           graph_tasks env h2 listId RecentlyCompleted with
     | Body notCompletedValue, Body completedValue =>
         let allNotCompleted := nullish notCompletedValue [] in
         let allCompleted := nullish completedValue [] in
         mret
           (List.filter (relevantNotCompleted todayEnd)
              (map (mapTask listId listName wellknown) allNotCompleted)
            ++ List.filter (completedToday todayStart todayEnd)
                 (map (mapTask listId listName wellknown) allCompleted))
     | _, _ => throw
     end)
    (mret []).

(** The [for (const list of validLists)] loop of [getTodoItems]. *)
Fixpoint forLists (validLists : list TodoList)
    (tasksPerList : list (list TodoTask)) : Eff (list (list TodoTask)) :=
  match validLists with
  | [] => mret tasksPerList
  | list :: rest =>
      tasks ← getTasksForList (list_id list) (displayName list)
                (wellknownListName list);
      delay 150;;
      forLists rest (tasksPerList ++ [tasks])
  end.

Definition getTodoItems : Eff TodoItems :=
  try_catch
    (ls ← getTodoLists;
     if (length ls =? 0)%nat then mret {| tasks := []; lists := [] |}
     else
       let validLists :=
         List.filter
           (fun l => negb (str_eqb (wellknownListName l)
                             (lit "flaggedEmails"))) ls in
       tasksPerList ← forLists validLists [];
       mret {| tasks := concat tasksPerList; lists := validLists |})
    (mret {| tasks := []; lists := [] |}).

Definition createTodoTask (listId title0 : jsstring) : Eff GraphTask :=
  token ← getAccessToken;
  request (EvCreateTask listId title0)
    (fun h => graph_create env h listId title0).

Definition updateTodoTask (listId taskId : jsstring) (status : TaskStatus)
  : Eff unit :=
  token ← getAccessToken;
  request (EvUpdateTask listId taskId status)
    (fun h => if graph_update env h listId taskId status
              then Some tt else None).

Definition deleteTodoTask (listId taskId : jsstring) : Eff unit :=
  token ← getAccessToken;
  request (EvDeleteTask listId taskId)
    (fun h => if graph_delete env h listId taskId then Some tt else None).

(** ** useTodos.ts *)

(** [await import("../services/graph")] *)
Definition import_graph : Eff unit :=
  h ← get trace;
  if import_resolves env h then mret tt else throw.

(** The three handlers look the item up in the collection of the render
    they belong to, [current], and update the state through
    [setTodos(prev => ...)]. *)
Definition toggleTodo (i : jsstring) : Eff unit :=
  current ← get todos;
  match List.find (fun t => str_eqb (id t) i) current with
  | None => mret tt
  | Some todo =>
      let newDone := negb (done todo) in
      setTodos
        (map (fun t => if str_eqb (id t) i then set_done newDone t else t));;
      try_catch
        (if negb (str_eqb (listId todo) (lit "default"))
         then
           import_graph;;
           updateTodoTask (listId todo) (id todo)
             (if newDone then completed else notStarted)
         else mret tt)
        (setTodos
           (map (fun t =>
                   if str_eqb (id t) i then set_done (negb newDone) t
                   else t)))
  end.

(** [lists.find(l => l.displayName === "Tasks") || lists[0]] *)
Definition defaultListOf (ls : list TodoList) : option TodoList :=
  match List.find (fun l => str_eqb (displayName l) (lit "Tasks")) ls with
  | Some l => Some l
  | None => head ls
  end.

Definition addTodo (txt : jsstring) : Eff unit :=
  if negb (truthy (trim txt)) then mret tt
  else
    try_catch
      (import_graph;;
       ls ← getTodoLists;
       match defaultListOf ls with
       | Some defaultList =>
           newTask ← createTodoTask (list_id defaultList) txt;
           setTodos
             (fun prev =>
                {| id := gt_id newTask; listId := list_id defaultList;
                   listName := None; item_wellknownListName := None;
                   text := gt_title newTask;
                   done := status_eqb (gt_status newTask) completed |}
                :: prev)
       | None => mret tt
       end)
      (mret tt).

Definition deleteTodo (i : jsstring) : Eff unit :=
  current ← get todos;
  match List.find (fun t => str_eqb (id t) i) current with
  | None => mret tt
  | Some todo =>
      setTodos (List.filter (fun t => negb (str_eqb (id t) i)));;
      try_catch
        (if negb (str_eqb (listId todo) (lit "default"))
         then
           import_graph;;
           deleteTodoTask (listId todo) (id todo)
         else mret tt)
        (setTodos (fun prev => prev ++ [todo]))
  end.

(** ** api.ts and useNewsData.ts *)

Definition getNews (q role : jsstring) : Eff (list Article) :=
  data ← request (EvGetNews q role) (fun h => api_news env h q role);
  mret (nullish data []).

Definition generateTopics (job dept : jsstring) : Eff (list jsstring) :=
  data ← request (EvGenerateTopics job dept)
           (fun h => api_topics env h job dept);
  mret (nullish data []).

Definition fetchNews (q role : jsstring) : Eff (list Article) :=
  setLoading true;;
  setApiError None;;
  try_finally
    (try_catch
       (getNews q role)
       (setApiError
          (Some (lit "The connection to the backend was refused. Is the main.py server running?"));;
        mret []))
    (setLoading false).

Definition generateTopicsAndFetch (targetProfile : UserProfile)
    (uid : option jsstring) : Eff unit :=
  stateUserId ← get userId;
  let effectiveUid := nullish uid stateUserId in
  cached ← getCachedNews effectiveUid;
  let live : Eff unit :=
    setLoading true;;
    setApiError None;;
    try_catch
      (tops ← generateTopics (jobTitle targetProfile)
                (department targetProfile);
       if (0 <? length tops)%nat then
         arts ← fetchNews (join (lit ",") tops) (jobTitle targetProfile);
         if (0 <? length arts)%nat then
           setNews arts;;
           setCachedNews effectiveUid arts tops
         else mret tt
       else setLoading false)
      (setApiError
         (Some (lit "Could not reach the AI backend. Please ensure the backend is running on port 8000."));;
       setLoading false) in
  match cached with
  | Some c =>
      if (0 <? length (articles c))%nat then
        setNews (articles c);;
        setLoading false
      else live
  | None => live
  end.

(** [refreshNews] of [AppContext.tsx], whose
    [generateTopicsAndFetchWithProfile] is [generateTopicsAndFetch];
    [profile] is the profile of the render. *)
Definition refreshNews (profile : UserProfile) : Eff unit :=
  uid ← get userId;
  clearCachedNews uid;;
  generateTopicsAndFetch profile (Some uid).

(** [handleAddTodo] of [useTodos.ts], for the key [e.key] and the content
    [newTodoTitle] of the input; it returns the content the input has
    afterwards. *)
Definition handleAddTodo (key newTodoTitle : jsstring) : Eff jsstring :=
  if str_eqb key (lit "Enter") && truthy (trim newTodoTitle)
  then addTodo (trim newTodoTitle);; mret []
  else mret newTodoTitle.

End Program.

(* ===================================================================== *)
(** * The search box of [AppContext.tsx] *)
(* ===================================================================== *)

(** The keys [handleSearch] tells apart. *)
Inductive Key := ArrowDown | ArrowUp | Enter | Escape | OtherKey.

(** The state of the search box. *)
Record SearchState := {
  searchQuery : jsstring;
  suggestions : list jsstring;
  showSuggestions : bool;
  activeSuggestion : Z
}.

Definition with_suggestions (l : list jsstring) (st : SearchState)
  : SearchState :=
  {| searchQuery := searchQuery st; suggestions := l;
     showSuggestions := showSuggestions st;
     activeSuggestion := activeSuggestion st |}.

Definition with_showSuggestions (b : bool) (st : SearchState) : SearchState :=
  {| searchQuery := searchQuery st; suggestions := suggestions st;
     showSuggestions := b; activeSuggestion := activeSuggestion st |}.

Definition with_activeSuggestion (a : Z) (st : SearchState) : SearchState :=
  {| searchQuery := searchQuery st; suggestions := suggestions st;
     showSuggestions := showSuggestions st; activeSuggestion := a |}.

(** What the lookup answers: the request or the reading of the body is
    rejected (also by the timeout), the response is not ok, or the body
    is an array whose second element may be missing. *)
Inductive SuggestResponse :=
| SuggestRejected
| SuggestNotOk
| SuggestBody (second : option (list jsstring)).

(** [fetchSuggestions(query)], given what the lookup answers. *)
Definition fetchSuggestions (query : jsstring) (resp : SuggestResponse)
    (st : SearchState) : SearchState :=
  if negb (truthy (trim query))
  then with_showSuggestions false (with_suggestions [] st)
  else
    match resp with
    | SuggestBody (Some l) =>
        with_showSuggestions true (with_suggestions (firstn 8 l) st)
    | SuggestBody None => with_suggestions [] st
    | SuggestNotOk => st
    | SuggestRejected => with_suggestions [] st
    end.

(** [openGoogleSearch(query)]: the state afterwards and the query that is
    opened in a new window, if one is. *)
Definition openGoogleSearch (query : jsstring) (st : SearchState)
  : SearchState * option jsstring :=
  if negb (truthy (trim query)) then (st, None)
  else (with_showSuggestions false st, Some (trim query)).

(** [suggestions[activeSuggestion]]; [None] is [undefined]. *)
Definition suggestion_at (st : SearchState) : option jsstring :=
  if activeSuggestion st <? 0 then None
  else nth_error (suggestions st) (Z.to_nat (activeSuggestion st)).

(** [handleSearch(e)] for the key [e.key]: the state afterwards and the
    query opened, or [None] for the [TypeError] of [undefined.trim()]. *)
Definition handleSearch (key : Key) (st : SearchState)
  : option (SearchState * option jsstring) :=
  match key with
  | ArrowDown =>
      Some (with_activeSuggestion
              (Z.min (activeSuggestion st + 1)
                 (Z.of_nat (length (suggestions st)) - 1)) st, None)
  | ArrowUp =>
      Some (with_activeSuggestion (Z.max (activeSuggestion st - 1) (-1)) st,
            None)
  | Enter =>
      if 0 <=? activeSuggestion st then
        match suggestion_at st with
        | Some query => Some (openGoogleSearch query st)
        | None => None
        end
      else Some (openGoogleSearch (searchQuery st) st)
  | Escape => Some (with_showSuggestions false st, None)
  | OtherKey => Some (st, None)
  end.

(** A sequence of key presses, stopped by the first that throws. *)
Fixpoint pressKeys (keys : list Key) (st : SearchState)
  : option SearchState :=
  match keys with
  | [] => Some st
  | k :: rest =>
      match handleSearch k st with
      | Some (st', _) => pressKeys rest st'
      | None => None
      end
  end.

(* ===================================================================== *)
(** * The vocabulary of the properties

    Notions of the specification, and names for parts of the runs, in
    which the properties are stated. *)
(* ===================================================================== *)

Section Vocabulary.

Variable env : Env.

(** The text [deriveUserId] encodes for a guest. *)
Definition fingerprint (jt dept : option jsstring) : jsstring :=
  nullish jt (lit "unknown") ++ lit "|" ++ nullish dept (lit "unknown").

(** [t.id === i ? { ...t, done: d } : t] over the collection. *)
Definition mark (i : jsstring) (d : bool) (l : list TodoItem)
  : list TodoItem :=
  map (fun t => if str_eqb (id t) i then set_done d t else t) l.

(** The status [toggleTodo] sends for a new value of the flag. *)
Definition status_for (newDone : bool) : TaskStatus :=
  if newDone then completed else notStarted.

(** The specification's words for the choice of the target list: the
    first list whose display name is [Tasks], and the first list of all
    when no list has that name. *)
Inductive resolves_to (ls : list TodoList) (dl : TodoList) : Prop :=
| resolved_by_name (pre post : list TodoList) :
    ls = pre ++ dl :: post ->
    displayName dl = lit "Tasks" ->
    Forall (fun l => displayName l <> lit "Tasks") pre ->
    resolves_to ls dl
| resolved_by_position (rest : list TodoList) :
    ls = dl :: rest ->
    Forall (fun l => displayName l <> lit "Tasks") ls ->
    resolves_to ls dl.

(** The item [addTodo] builds from the created task. *)
Definition created_item (dl : TodoList) (newTask : GraphTask) : TodoItem :=
  {| id := gt_id newTask; listId := list_id dl; listName := None;
     item_wellknownListName := None; text := gt_title newTask;
     done := status_eqb (gt_status newTask) completed |}.

(** The world after the two requests of [getTasksForList] have left. *)
Definition after_queries (l : jsstring) (w : World) : World :=
  log (EvGetTasks l RecentlyCompleted)
    (log (EvGetTasks l NotCompleted) (tick (tick w))).

(** The number of the UTC day an instant falls on. *)
Definition utcDay (t : Z) : Z := t / msPerDay.

(** In the words of the specification: the number of the local day an
    instant falls on, in a zone that is [offset] milliseconds ahead of
    UTC. *)
Definition localDay (offset t : Z) : Z := (t + offset) / msPerDay.

(** The date that decides for a task that is not completed: its due
    date, read as UTC, and its creation date when it has none. *)
Definition deciding_date (task : TodoTask) : option Z :=
  match task_dueDateTime task with
  | Some d => Date_parse env (dateTime d ++ lit "Z")
  | None => Date_parse env (task_createdDateTime task)
  end.

(** In the words of the specification, by day numbers: a date that
    falls on or before a day, and a date that falls within days. *)
Definition on_or_before (day : Z) (date : option Z) : bool :=
  match date with
  | Some d => utcDay d <=? day
  | None => false
  end.

Definition within_days (first last : Z) (date : option Z) : bool :=
  match date with
  | Some d => (first <=? utcDay d) && (utcDay d <=? last)
  | None => false
  end.

(** The lists [getTodoItems] keeps. *)
Definition not_flagged (l : TodoList) : bool :=
  negb (str_eqb (wellknownListName l) (lit "flaggedEmails")).

(** The effects one list accounts for: its two requests, unless no
    token could be had, and then the pause. *)
Definition window (l : TodoList) (fetched : bool) : list Event :=
  (if fetched
   then [EvGetTasks (list_id l) NotCompleted;
         EvGetTasks (list_id l) RecentlyCompleted]
   else [])
  ++ [EvDelay 150].

(** One list after the other: the tasks of a list are fetched in the
    world that the fetch of the list before it, followed by the pause,
    has left. *)
Inductive Sequential
  : list TodoList -> World -> list (list TodoTask) -> World -> Prop :=
| Sequential_nil (w : World) : Sequential [] w [] w
| Sequential_cons (l : TodoList) (rest : list TodoList) (w w' : World)
    (found : list TodoTask) (per : list (list TodoTask)) :
    let fetch :=
      getTasksForList env (list_id l) (displayName l)
        (wellknownListName l) in
    result fetch w = Returned found ->
    Sequential rest (exec (delay 150) (exec fetch w)) per w' ->
    Sequential (l :: rest) w (found :: per) w'.

(** The effects [addTodo] may perform for a text: the read of the lists,
    the creation of a task with that text as its title, and the
    publication of the collection. *)
Definition addTodo_effect (txt : jsstring) (e : Event) : Prop :=
  match e with
  | EvGetLists => True
  | EvCreateTask _ t => t = txt
  | EvSetTodos _ => True
  | _ => False
  end.

(** The lookup of the three handlers of [useTodos.ts]. *)
Definition find_todo (i : jsstring) (l : list TodoItem) : option TodoItem :=
  List.find (fun t => str_eqb (id t) i) l.

(** The collection without the items whose identifier is [i]. *)
Definition without (i : jsstring) (l : list TodoItem) : list TodoItem :=
  List.filter (fun t => negb (str_eqb (id t) i)) l.

(** A task carries the identifier and the two names of a list. *)
Definition task_of_list (l : TodoList) (t : TodoTask) : Prop :=
  task_listId t = list_id l
  /\ task_listName t = displayName l
  /\ task_wellknownListName t = wellknownListName l.

(** The two banners of the feed. *)
Definition msg_backend : jsstring :=
  lit "The connection to the backend was refused. Is the main.py server running?".

Definition msg_ai : jsstring :=
  lit "Could not reach the AI backend. Please ensure the backend is running on port 8000.".

(** The live part of [generateTopicsAndFetch], which runs when the cache
    gave nothing. *)
Definition liveFetch (targetProfile : UserProfile) (effectiveUid : jsstring)
  : Eff unit :=
  setLoading true;;
  setApiError None;;
  try_catch
    (tops ← generateTopics env (jobTitle targetProfile)
              (department targetProfile);
     if (0 <? length tops)%nat then
       arts ← fetchNews env (join (lit ",") tops) (jobTitle targetProfile);
       if (0 <? length arts)%nat then
         setNews arts;;
         setCachedNews env effectiveUid arts tops
       else mret tt
     else setLoading false)
    (setApiError (Some msg_ai);;
     setLoading false).

(** How the live part can end. *)
Inductive LiveEnd :=
| TopicsFailed
| NoTopics
| NewsFailed (tops : list jsstring)
| NoNews (tops : list jsstring)
| Published (tops : list jsstring) (arts : list Article).

(** The end the answers of the two services lead to, the history being
    [h] when the live part starts. *)
Definition live_end (p : UserProfile) (h : list Event) : LiveEnd :=
  let h0 := h ++ [EvSetLoading true; EvSetApiError None] in
  match api_topics env h0 (jobTitle p) (department p) with
  | None => TopicsFailed
  | Some d =>
      match nullish d [] with
      | [] => NoTopics
      | t :: ts =>
          let tops := t :: ts in
          let h1 :=
            h0 ++ [EvGenerateTopics (jobTitle p) (department p);
                   EvSetLoading true; EvSetApiError None] in
          match api_news env h1 (join (lit ",") tops) (jobTitle p) with
          | None => NewsFailed tops
          | Some d' =>
              match nullish d' [] with
              | [] => NoNews tops
              | a :: r => Published tops (a :: r)
              end
          end
      end
  end.

(** The effects of the live part for each of its ends. *)
Definition live_trace (p : UserProfile) (e : LiveEnd) : list Event :=
  [EvSetLoading true; EvSetApiError None;
   EvGenerateTopics (jobTitle p) (department p)]
  ++ match e with
     | TopicsFailed => [EvSetApiError (Some msg_ai); EvSetLoading false]
     | NoTopics => [EvSetLoading false]
     | NewsFailed tops =>
         [EvSetLoading true; EvSetApiError None;
          EvGetNews (join (lit ",") tops) (jobTitle p);
          EvSetApiError (Some msg_backend); EvSetLoading false]
     | NoNews tops =>
         [EvSetLoading true; EvSetApiError None;
          EvGetNews (join (lit ",") tops) (jobTitle p); EvSetLoading false]
     | Published tops arts =>
         [EvSetLoading true; EvSetApiError None;
          EvGetNews (join (lit ",") tops) (jobTitle p); EvSetLoading false;
          EvSetNews arts]
     end.


End Vocabulary.

(* ===================================================================== *)
(** * A concrete environment

    One instance of [Env] and a few values, on which the statements below
    are run. *)
(* ===================================================================== *)

Module Sample.

Definition article_A : Article :=
  {| title := lit "Proof assistants in production";
     description := lit "A survey";
     url := lit "https://news.example/a";
     urlToImage := None;
     sourceName := lit "Example Times";
     publishedAt := lit "2024-01-01T09:00:00Z" |}.

Definition article_B : Article :=
  {| title := lit "Caching at the edge";
     description := lit "Notes";
     url := lit "https://news.example/b";
     urlToImage := Some (lit "https://news.example/b.png");
     sourceName := lit "Example Post";
     publishedAt := lit "2024-01-01T10:00:00Z" |}.

(** 2024-01-01T20:30:00Z, which is 02:00 on January 2 at UTC+05:30;
    each reading of the clock is one second after the one before. *)
Definition t_start : Z := 1704141000000.
Definition sample_clock (n : nat) : Z := t_start + 1000 * Z.of_nat n.

(** A serialiser in the manner of [JSON.stringify]. *)
Definition quote (s : jsstring) : jsstring :=
  [34%N]
    ++ flat_map
         (fun c => if ((c =? 34) || (c =? 92))%N then [92%N; c] else [c]) s
    ++ [34%N].

Definition commas (l : list jsstring) : jsstring := join (lit ",") l.

Definition number (z : Z) : jsstring :=
  lit (DecimalString.NilZero.string_of_int (Z.to_int z)).

Definition article_json (a : Article) : jsstring :=
  lit "{" ++ commas
    [quote (lit "title") ++ lit ":" ++ quote (title a);
     quote (lit "description") ++ lit ":" ++ quote (description a);
     quote (lit "url") ++ lit ":" ++ quote (url a);
     quote (lit "urlToImage") ++ lit ":"
       ++ match urlToImage a with
          | Some u => quote u
          | None => lit "null"
          end;
     quote (lit "source") ++ lit ":{" ++ quote (lit "name") ++ lit ":"
       ++ quote (sourceName a) ++ lit "}";
     quote (lit "publishedAt") ++ lit ":" ++ quote (publishedAt a)]
  ++ lit "}".

Definition stringify (e : NewsCacheEntry) : jsstring :=
  lit "{" ++ commas
    [quote (lit "articles") ++ lit ":[" ++ commas (map article_json (articles e))
       ++ lit "]";
     quote (lit "topics") ++ lit ":[" ++ commas (map quote (topics e))
       ++ lit "]";
     quote (lit "cachedAt") ++ lit ":" ++ number (cachedAt e);
     quote (lit "userId") ++ lit ":" ++ quote (entryUserId e)]
  ++ lit "}".

(** The entry a write for user [u1] makes at the first reading of the
    clock, and one made three hours earlier. *)
Definition entry_now : NewsCacheEntry :=
  {| articles := [article_A; article_B]; topics := [lit "ai"; lit "ml"];
     cachedAt := sample_clock 0; entryUserId := lit "u1" |}.

Definition entry_old : NewsCacheEntry :=
  {| articles := [article_A]; topics := [lit "ai"];
     cachedAt := t_start - 3 * 60 * 60 * 1000; entryUserId := lit "u2" |}.

(** A parser that reads back the documents of [known] and rejects every
    other text. *)
Definition parse_among (known : list NewsCacheEntry) (s : jsstring)
  : option NewsCacheEntry :=
  List.find (fun e => str_eqb (stringify e) s) known.

(** The dates of the examples. *)
Definition parse_date (s : jsstring) : option Z :=
  if str_eqb s (lit "2024-01-01T12:00:00Z") then Some 1704110400000
  else if str_eqb s (lit "2023-12-31T08:00:00Z") then Some 1704009600000
  else if str_eqb s (lit "2024-01-02T00:00:00.0000000Z")
       then Some 1704153600000
  else if str_eqb s (lit "2024-01-01T00:00:00.0000000Z")
       then Some 1704067200000
  else None.

Definition list_flagged : TodoList :=
  {| list_id := lit "L-flagged"; displayName := lit "Flagged Emails";
     wellknownListName := lit "flaggedEmails" |}.

Definition list_work : TodoList :=
  {| list_id := lit "L-work"; displayName := lit "Work";
     wellknownListName := lit "none" |}.

Definition list_tasks : TodoList :=
  {| list_id := lit "L-tasks"; displayName := lit "Tasks";
     wellknownListName := lit "defaultList" |}.

Definition graph_task (i : string) (st : TaskStatus)
    (due : option jsstring) (created : string) : GraphTask :=
  {| gt_id := lit i; gt_title := lit "Task " ++ lit i; gt_status := st;
     gt_dueDateTime :=
       match due with
       | Some d => Some {| dateTime := d; timeZone := lit "UTC" |}
       | None => None
       end;
     gt_createdDateTime := lit created; gt_importance := lit "normal" |}.

(** Incomplete: one task due at the start of January 2 (UTC), one due
    on January 1, one without a due date.  Completed: one created on
    January 1 and one on December 31. *)
Definition due_tomorrow_utc : GraphTask :=
  graph_task "g1" notStarted (Some (lit "2024-01-02T00:00:00.0000000"))
    "2023-12-31T08:00:00Z".
Definition due_today : GraphTask :=
  graph_task "g2" inProgress (Some (lit "2024-01-01T00:00:00.0000000"))
    "2023-12-31T08:00:00Z".
Definition no_due : GraphTask :=
  graph_task "g3" notStarted None "2024-01-01T12:00:00Z".
Definition done_today_utc : GraphTask :=
  graph_task "g4" completed None "2024-01-01T12:00:00Z".
Definition done_earlier : GraphTask :=
  graph_task "g5" completed None "2023-12-31T08:00:00Z".

Definition tasks_of (listId : jsstring) (q : TaskQuery) : TasksResponse :=
  if str_eqb listId (lit "L-work") then
    match q with
    | NotCompleted => Body (Some [due_tomorrow_utc; due_today; no_due])
    | RecentlyCompleted => Body (Some [done_today_utc; done_earlier])
    end
  else if str_eqb listId (lit "L-tasks") then
    match q with
    | NotCompleted => Body (Some [no_due])
    | RecentlyCompleted => Body None
    end
  else Rejected.

(** The remote services answer when [online]; the task whose id is
    [t-locked] can be neither updated nor deleted. *)
Definition env (online : bool) : Env :=
  {| clock := sample_clock;
     Date_parse := parse_date;
     JSON_stringify := stringify;
     JSON_parse := parse_among [entry_now; entry_old];
     storage_accepts := fun _ _ _ => true;
     import_resolves := fun _ => true;
     acquireToken := fun _ => Some (lit "token");
     graph_lists := fun _ =>
       if online then Some (Some [list_flagged; list_work; list_tasks])
       else None;
     graph_tasks := fun _ l q => if online then tasks_of l q else Rejected;
     graph_create := fun _ _ t =>
       if online
       then Some {| gt_id := lit "g-new"; gt_title := t;
                    gt_status := notStarted; gt_dueDateTime := None;
                    gt_createdDateTime := lit "2024-01-01T12:00:00Z";
                    gt_importance := lit "normal" |}
       else None;
     graph_update := fun _ _ t _ =>
       online && negb (str_eqb t (lit "t-locked"));
     graph_delete := fun _ _ t =>
       online && negb (str_eqb t (lit "t-locked"));
     api_topics := fun _ _ _ =>
       if online then Some (Some [lit "ai"; lit "ml"]) else None;
     api_news := fun _ _ _ =>
       if online then Some (Some [article_A; article_B]) else None |}.

Definition item (i l : string) (d : bool) : TodoItem :=
  {| id := lit i; listId := lit l; listName := Some (lit "Work");
     item_wellknownListName := Some (lit "none");
     text := lit "Write the report"; done := d |}.

Definition world (m : gmap jsstring jsstring) (items : list TodoItem)
  : World :=
  {| localStorage := m; todos := items; news := []; loading := true;
     apiError := None; userId := lit "guest"; ticks := 0; trace := [] |}.

End Sample.

Module Runs.
Import Sample.

Definition online : Env := Sample.env true.
Definition offline : Env := Sample.env false.

Definition u1 : jsstring := lit "u1".
Definition u2 : jsstring := lit "u2".
Definition u3 : jsstring := lit "u3".

(** An empty browser, and one that holds a stale record for [u2] and a
    damaged one for [u3]. *)
Definition fresh_browser : World := world ∅ [].

Definition used_browser : World :=
  world (<[getCacheKey u2 := stringify entry_old]>
           (<[getCacheKey u3 := lit "{articles:"]> ∅)) [].

(** The browser one second after [u1]'s feed was cached. *)
Definition cached_browser : World :=
  exec (setCachedNews online u1 [article_A; article_B] [lit "ai"; lit "ml"])
    fresh_browser.

(** A panel of three tasks of the list [L-work] and a local one. *)
Definition panel : list TodoItem :=
  [item "t1" "L-work" false; item "t-locked" "L-work" true;
   item "t3" "L-work" false; item "t0" "default" false].

Definition desk : World := world ∅ panel.

End Runs.

(** Environments in which one of the two services of the feed is down or
    has nothing to say, and a search box with three suggestions. *)
Module Outages.

Definition with_feed
    (topics : option (option (list jsstring)))
    (articles : option (option (list Article))) (base : Env) : Env :=
  {| clock := clock base;
     Date_parse := Date_parse base;
     JSON_stringify := JSON_stringify base;
     JSON_parse := JSON_parse base;
     storage_accepts := storage_accepts base;
     import_resolves := import_resolves base;
     acquireToken := acquireToken base;
     graph_lists := graph_lists base;
     graph_tasks := graph_tasks base;
     graph_create := graph_create base;
     graph_update := graph_update base;
     graph_delete := graph_delete base;
     api_topics := fun _ _ _ => topics;
     api_news := fun _ _ _ => articles |}.

Definition no_topics : Env :=
  with_feed (Some (Some [])) (Some (Some [Sample.article_A])) Runs.online.

Definition topics_down : Env :=
  with_feed None (Some (Some [Sample.article_A])) Runs.online.

Definition news_down : Env :=
  with_feed (Some (Some [lit "ai"; lit "ml"])) None Runs.online.

Definition engineer : UserProfile :=
  {| jobTitle := lit "AI Engineer"; department := lit "Innovic" |}.

Definition box : SearchState :=
  {| searchQuery := lit "ai";
     suggestions := [lit "ai engineer jobs"; lit "ai news"; lit "aiims"];
     showSuggestions := true;
     activeSuggestion := -1 |}.

End Outages.

(* ===================================================================== *)
(** * Properties *)
(* ===================================================================== *)

(** ** Base64 *)

Ltac div_lia := zify; Z.to_euclidean_division_equations; lia.

Module Base64Facts.
Import Base64.
Local Open Scope N_scope.

Lemma value_symbol (n : N) : n < 64 -> value (symbol n) = Some n.
Proof.
  intros Hn. unfold symbol, value.
  repeat match goal with
         | |- context [?a <? ?b] => destruct (N.ltb_spec a b)
         | |- context [?a <=? ?b] => destruct (N.leb_spec a b)
         | |- context [?a =? ?b] => destruct (N.eqb_spec a b)
         | _ => progress simpl
         end; try lia; f_equal; lia.
Qed.

Lemma symbol_not_pad (n : N) : (symbol n =? pad) = false.
Proof.
  unfold symbol, pad.
  repeat match goal with
         | |- context [?a <? ?b] => destruct (N.ltb_spec a b)
         | |- context [if ?a =? ?b then _ else _] => destruct (N.eqb_spec a b)
         end; apply N.eqb_neq; lia.
Qed.

Lemma symbol_is_symbol (n : N) : n < 64 -> is_symbol (symbol n) = true.
Proof. intros Hn. unfold is_symbol. now rewrite value_symbol. Qed.

(** Lists are consumed three octets at a time. *)
Lemma list_ind3 {A} (P : list A -> Prop) :
  P [] -> (forall a, P [a]) -> (forall a b, P [a; b]) ->
  (forall a b c l, P l -> P (a :: b :: c :: l)) ->
  forall l, P l.
Proof.
  intros H0 H1 H2 H3.
  fix IH 1.
  intros [|a [|b [|c l]]];
    [apply H0 | apply H1 | apply H2 | apply H3; apply IH].
Qed.

Lemma decode_encode (l : list N) :
  forallb latin1 l = true -> decode (encode l) = Some l.
Proof.
  induction l as [|a|a b|a b c l IH] using list_ind3; intros Hl.
  - reflexivity.
  - simpl in Hl. unfold latin1 in Hl.
    apply andb_true_iff in Hl as [Ha _]. apply N.leb_le in Ha.
    cbn [encode decode].
    rewrite !value_symbol by div_lia.
    rewrite N.eqb_refl. simpl. do 2 f_equal. div_lia.
  - simpl in Hl. unfold latin1 in Hl.
    apply andb_true_iff in Hl as [Ha Hl].
    apply andb_true_iff in Hl as [Hb _].
    apply N.leb_le in Ha, Hb.
    cbn [encode decode].
    rewrite !value_symbol by div_lia.
    rewrite symbol_not_pad, N.eqb_refl. simpl.
    f_equal. f_equal; [div_lia | f_equal; div_lia].
  - simpl in Hl. unfold latin1 in Hl.
    apply andb_true_iff in Hl as [Ha Hl].
    apply andb_true_iff in Hl as [Hb Hl].
    apply andb_true_iff in Hl as [Hc Hl].
    apply N.leb_le in Ha, Hb, Hc.
    specialize (IH Hl).
    assert (Hv1 : value (symbol (a / 4)) = Some (a / 4))
      by (apply value_symbol; div_lia).
    assert (Hv2 : value (symbol (a mod 4 * 16 + b / 16))
                  = Some (a mod 4 * 16 + b / 16))
      by (apply value_symbol; div_lia).
    assert (Hv3 : value (symbol (b mod 16 * 4 + c / 64))
                  = Some (b mod 16 * 4 + c / 64))
      by (apply value_symbol; div_lia).
    assert (Hv4 : value (symbol (c mod 64)) = Some (c mod 64))
      by (apply value_symbol; div_lia).
    assert (Ha' : a / 4 * 4 + (a mod 4 * 16 + b / 16) / 16 = a) by div_lia.
    assert (Hb' : (a mod 4 * 16 + b / 16) mod 16 * 16
                  + (b mod 16 * 4 + c / 64) / 4 = b) by div_lia.
    assert (Hc' : (b mod 16 * 4 + c / 64) mod 4 * 64 + c mod 64 = c)
      by div_lia.
    change (encode (a :: b :: c :: l))
      with (symbol (a / 4) :: symbol (a mod 4 * 16 + b / 16)
            :: symbol (b mod 16 * 4 + c / 64) :: symbol (c mod 64)
            :: encode l).
    destruct (encode l) as [|s rest] eqn:E.
    + cbn [decode]. rewrite Hv1, Hv2, Hv3, Hv4.
      rewrite !symbol_not_pad. simpl.
      cbn [decode] in IH. injection IH as <-.
      now rewrite Ha', Hb', Hc'.
    + set (tail := s :: rest) in *.
      assert (Hd : decode (symbol (a / 4) :: symbol (a mod 4 * 16 + b / 16)
                     :: symbol (b mod 16 * 4 + c / 64) :: symbol (c mod 64)
                     :: tail)
                   = match value (symbol (a / 4)),
                           value (symbol (a mod 4 * 16 + b / 16)),
                           value (symbol (b mod 16 * 4 + c / 64)),
                           value (symbol (c mod 64)), decode tail with
                     | Some v1, Some v2, Some v3, Some v4, Some r =>
                         Some (v1 * 4 + v2 / 16 :: v2 mod 16 * 16 + v3 / 4
                               :: v3 mod 4 * 64 + v4 :: r)
                     | _, _, _, _, _ => None
                     end) by reflexivity.
      rewrite Hd, Hv1, Hv2, Hv3, Hv4, IH.
      now rewrite Ha', Hb', Hc'.
Qed.

Lemma encode_symbols (l : list N) :
  forallb latin1 l = true -> forallb is_symbol (encode l) = true.
Proof.
  induction l as [|a|a b|a b c l IH] using list_ind3; intros Hl.
  - reflexivity.
  - simpl in Hl. unfold latin1 in Hl.
    apply andb_true_iff in Hl as [Ha _]. apply N.leb_le in Ha.
    cbn [encode forallb].
    rewrite !symbol_is_symbol by div_lia. reflexivity.
  - simpl in Hl. unfold latin1 in Hl.
    apply andb_true_iff in Hl as [Ha Hl].
    apply andb_true_iff in Hl as [Hb _].
    apply N.leb_le in Ha, Hb.
    cbn [encode forallb].
    rewrite !symbol_is_symbol by div_lia. reflexivity.
  - simpl in Hl. unfold latin1 in Hl.
    apply andb_true_iff in Hl as [Ha Hl].
    apply andb_true_iff in Hl as [Hb Hl].
    apply andb_true_iff in Hl as [Hc Hl].
    apply N.leb_le in Ha, Hb, Hc.
    change (encode (a :: b :: c :: l))
      with (symbol (a / 4) :: symbol (a mod 4 * 16 + b / 16)
            :: symbol (b mod 16 * 4 + c / 64) :: symbol (c mod 64)
            :: encode l).
    cbn [forallb].
    rewrite !symbol_is_symbol by div_lia. simpl. auto.
Qed.

End Base64Facts.

(** ** The cache key of a user *)

Lemma deriveUserId_guest (jt dept : option jsstring) :
  deriveUserId None jt dept = deriveUserId (Some []) jt dept.
Proof. reflexivity. Qed.

Lemma getCacheKey_inj (a b : jsstring) :
  getCacheKey a = getCacheKey b -> a = b.
Proof. unfold getCacheKey. apply app_inv_head. Qed.

(** C3, as amended: [deriveUserId] is a total function of its three
    arguments.  An account identifier that is present and not empty is
    returned unchanged.  When it is absent or empty, the key is the base64
    text of [jobTitle ?? "unknown"] followed by a bar and
    [department ?? "unknown"], whenever every code unit of that text fits
    one octet: the key then consists of base64 symbols only and decodes
    back to the text.  When some code unit does not fit, the key is
    [guest].  Equal arguments give equal keys. *)
Theorem deriveUserId_spec (acct jt dept : option jsstring) :
  (forall a, acct = Some a -> a <> [] -> deriveUserId acct jt dept = a)
  /\ (acct = None \/ acct = Some [] ->
      (forallb Base64.latin1 (fingerprint jt dept) = true ->
       deriveUserId acct jt dept = Base64.encode (fingerprint jt dept)
       /\ Base64.decode (deriveUserId acct jt dept)
          = Some (fingerprint jt dept)
       /\ forallb Base64.is_symbol (deriveUserId acct jt dept) = true)
      /\ (forallb Base64.latin1 (fingerprint jt dept) = false ->
          deriveUserId acct jt dept = lit "guest"))
  /\ (forall acct' jt' dept',
        acct = acct' -> jt = jt' -> dept = dept' ->
        deriveUserId acct jt dept = deriveUserId acct' jt' dept').
Proof.
  split; [|split].
  - intros a -> Ha. destruct a as [|c a]; [congruence | reflexivity].
  - intros Hacct.
    assert (Hd : deriveUserId acct jt dept
                 = match btoa (fingerprint jt dept) with
                   | Some key => key
                   | None => lit "guest"
                   end) by (destruct Hacct as [-> | ->]; reflexivity).
    rewrite Hd. unfold btoa. split; intros Hl; rewrite Hl.
    + split; [reflexivity|]. split.
      * now apply Base64Facts.decode_encode.
      * now apply Base64Facts.encode_symbols.
    + reflexivity.
  - intros acct' jt' dept' -> -> ->. reflexivity.
Qed.

(** C3, as stated, fails on an account identifier that is present but
    empty: the key is then the encoded fingerprint, not the identifier. *)
Lemma deriveUserId_empty_account :
  deriveUserId (Some []) None None = lit "dW5rbm93bnx1bmtub3du"
  /\ deriveUserId (Some []) None None <> [].
Proof. split; [vm_compute; reflexivity | discriminate]. Qed.

Example deriveUserId_account :
  deriveUserId (Some (lit "00000000-0000.tenant")) (Some (lit "AI Engineer"))
    None = lit "00000000-0000.tenant".
Proof. reflexivity. Qed.

Example deriveUserId_initial_profile :
  deriveUserId None (Some (lit "AI Engineer")) (Some (lit "Innovic"))
  = lit "QUkgRW5naW5lZXJ8SW5ub3ZpYw==".
Proof. vm_compute. reflexivity. Qed.

(** A job title with a character outside Latin-1 (here U+2014). *)
Example deriveUserId_not_latin1 :
  deriveUserId None (Some (lit "Lead " ++ [8212%N])) None = lit "guest".
Proof. vm_compute. reflexivity. Qed.

(** ** Running the monad *)

Lemma exec_bind {A B} (m : Eff A) (k : A -> Eff B) (w : World) (a : A) :
  result m w = Returned a ->
  (m ≫= k) w = k a (exec m w).
Proof.
  unfold result, exec, mbind, Eff_bind. destruct (m w) as [r w']; simpl.
  now intros ->.
Qed.

Lemma run_eta {A} (m : Eff A) (w : World) : m w = (result m w, exec m w).
Proof. unfold result, exec. now destruct (m w). Qed.

Ltac run :=
  unfold result, exec, mbind, Eff_bind, mret, Eff_ret, get, modify, emit,
    orThrow, throw, try_catch, try_finally in *;
  simpl in *.

Section Properties.

Variable env : Env.

(** ** newsCache.ts *)

(** What a read does, case by case. *)
Lemma readCache_run (k : jsstring) (w : World) :
  readCache env k w =
  match localStorage w !! getCacheKey k with
  | None => (Returned Missing, w)
  | Some raw =>
      if truthy raw then
        match JSON_parse env raw with
        | None => (Returned Unreadable, w)
        | Some e =>
            if clock env (ticks w) - cachedAt e >? CACHE_TTL_MS
            then (Returned Evicted,
                  with_storage (delete (getCacheKey k) (localStorage w))
                    (tick w))
            else (Returned (Fresh e), tick w)
        end
      else (Returned Missing, w)
  end.
Proof.
  unfold readCache, getItem, removeItem, Date_now. run.
  destruct (localStorage w !! getCacheKey k) as [raw|]; [|reflexivity].
  destruct (truthy raw); simpl; [|reflexivity].
  destruct (JSON_parse env raw) as [e|]; simpl; [|reflexivity].
  destruct (clock env (ticks w) - cachedAt e >? CACHE_TTL_MS); reflexivity.
Qed.

Lemma getCachedNews_run (k : jsstring) (w : World) :
  getCachedNews env k w
  = (Returned (match result (readCache env k) w with
               | Returned r => entry_of r
               | Thrown => None
               end),
     exec (readCache env k) w).
Proof.
  unfold getCachedNews, result, exec, mbind, Eff_bind, mret, Eff_ret.
  rewrite readCache_run.
  destruct (localStorage w !! getCacheKey k) as [raw|]; [|reflexivity].
  destruct (truthy raw); [|reflexivity].
  destruct (JSON_parse env raw) as [e|]; [|reflexivity].
  destruct (clock env (ticks w) - cachedAt e >? CACHE_TTL_MS); reflexivity.
Qed.

(** What a write does. *)
Lemma setCachedNews_run (k : jsstring) (arts : list Article)
    (tops : list jsstring) (w : World) :
  let entry :=
    {| articles := arts; topics := tops; cachedAt := clock env (ticks w);
       entryUserId := k |} in
  setCachedNews env k arts tops w =
  if storage_accepts env (localStorage w) (getCacheKey k)
       (JSON_stringify env entry)
  then (Returned tt,
        with_storage
          (<[getCacheKey k := JSON_stringify env entry]> (localStorage w))
          (tick w))
  else (Returned tt, tick w).
Proof.
  unfold setCachedNews, setItem, Date_now. run.
  destruct (storage_accepts env (localStorage w) (getCacheKey k) _);
    reflexivity.
Qed.

Lemma truthy_nonempty (s : jsstring) : s <> [] -> truthy s = true.
Proof. destruct s; [congruence | reflexivity]. Qed.

(** C1: a write for [k] at world [w0] that the storage accepts, followed
    by a read of [k] in any world [w] where the record of [k] is still
    the written one and the clock is at most the TTL past [cachedAt]:
    the read returns the written entry, with the articles and topics
    that were passed to the write, and leaves the storage as it is.
    The serialised entry is assumed to parse back to itself. *)
Theorem write_then_read (k : jsstring) (arts : list Article)
    (tops : list jsstring) (w0 w : World) :
  let entry :=
    {| articles := arts; topics := tops; cachedAt := clock env (ticks w0);
       entryUserId := k |} in
  storage_accepts env (localStorage w0) (getCacheKey k)
    (JSON_stringify env entry) = true ->
  JSON_stringify env entry <> [] ->
  JSON_parse env (JSON_stringify env entry) = Some entry ->
  localStorage w !! getCacheKey k
  = localStorage (exec (setCachedNews env k arts tops) w0) !! getCacheKey k ->
  clock env (ticks w) - cachedAt entry <= CACHE_TTL_MS ->
  exists e,
    result (getCachedNews env k) w = Returned (Some e)
    /\ e = entry
    /\ articles e = arts
    /\ topics e = tops
    /\ localStorage (exec (getCachedNews env k) w) = localStorage w.
Proof.
  intros entry Hacc Hne Hparse Hsame Hfresh.
  pose proof (setCachedNews_run k arts tops w0) as Hw.
  cbv zeta in Hw. fold entry in Hw. rewrite Hacc in Hw.
  unfold exec in Hsame. rewrite Hw in Hsame. simpl in Hsame.
  rewrite lookup_insert_eq in Hsame.
  unfold result, exec. rewrite getCachedNews_run.
  unfold result, exec. rewrite readCache_run, Hsame.
  rewrite (truthy_nonempty _ Hne), Hparse.
  destruct (Z.gtb_spec (clock env (ticks w) - cachedAt entry) CACHE_TTL_MS)
    as [Hgt | _]; [lia|].
  exists entry. simpl. repeat split; reflexivity.
Qed.

(** C2: a read of [k] whose record is older than the TTL removes the
    record and returns nothing; the read that follows finds no record:
    it returns nothing from the first test of [getCachedNews], reads no
    clock and changes nothing. *)
Theorem stale_read_evicts (k raw : jsstring) (entry : NewsCacheEntry)
    (w : World) :
  localStorage w !! getCacheKey k = Some raw ->
  raw <> [] ->
  JSON_parse env raw = Some entry ->
  clock env (ticks w) - cachedAt entry > CACHE_TTL_MS ->
  let w1 := exec (getCachedNews env k) w in
  result (getCachedNews env k) w = Returned None
  /\ result (readCache env k) w = Returned Evicted
  /\ localStorage w1 = delete (getCacheKey k) (localStorage w)
  /\ localStorage w1 !! getCacheKey k = None
  /\ (forall k', k' <> k ->
        localStorage w1 !! getCacheKey k' = localStorage w !! getCacheKey k')
  /\ result (getCachedNews env k) w1 = Returned None
  /\ result (readCache env k) w1 = Returned Missing
  /\ exec (getCachedNews env k) w1 = w1.
Proof.
  intros Hraw Hne Hparse Hstale w1.
  assert (Hrun : readCache env k w
                 = (Returned Evicted,
                    with_storage (delete (getCacheKey k) (localStorage w))
                      (tick w))).
  { rewrite readCache_run, Hraw, (truthy_nonempty _ Hne), Hparse.
    destruct (Z.gtb_spec (clock env (ticks w) - cachedAt entry)
                CACHE_TTL_MS); [reflexivity | lia]. }
  assert (Hw1 : w1 = with_storage (delete (getCacheKey k) (localStorage w))
                       (tick w)).
  { unfold w1, exec. rewrite getCachedNews_run. unfold exec.
    now rewrite Hrun. }
  assert (Hgone : localStorage w1 !! getCacheKey k = None).
  { rewrite Hw1. simpl. apply lookup_delete_eq. }
  assert (Hrun1 : readCache env k w1 = (Returned Missing, w1)).
  { rewrite readCache_run, Hgone. reflexivity. }
  repeat split.
  - unfold result. rewrite getCachedNews_run. unfold result.
    now rewrite Hrun.
  - unfold result. now rewrite Hrun.
  - now rewrite Hw1.
  - exact Hgone.
  - intros k' Hk'. rewrite Hw1. simpl. apply lookup_delete_ne.
    intros Heq. apply Hk'. symmetry. now apply getCacheKey_inj.
  - unfold result. rewrite getCachedNews_run. unfold result.
    now rewrite Hrun1.
  - unfold result. now rewrite Hrun1.
  - unfold exec. rewrite getCachedNews_run. unfold exec.
    now rewrite Hrun1.
Qed.

(** C10: a read of [k] whose record does not parse returns nothing and
    leaves the world, and so the storage under every key, exactly as it
    was: the record stays.  A record that is not empty takes the
    [catch]; however many reads follow, each one finds the same record
    and ends the same way. *)
Theorem unreadable_read_keeps_record (k raw : jsstring) (w : World) :
  localStorage w !! getCacheKey k = Some raw ->
  JSON_parse env raw = None ->
  result (getCachedNews env k) w = Returned None
  /\ exec (getCachedNews env k) w = w
  /\ localStorage (exec (getCachedNews env k) w) !! getCacheKey k = Some raw
  /\ (forall key, localStorage (exec (getCachedNews env k) w) !! key
                  = localStorage w !! key)
  /\ (raw <> [] -> result (readCache env k) w = Returned Unreadable)
  /\ (forall n,
        Nat.iter n (exec (getCachedNews env k)) w = w
        /\ result (getCachedNews env k)
             (Nat.iter n (exec (getCachedNews env k)) w) = Returned None
        /\ (raw <> [] ->
            result (readCache env k)
              (Nat.iter n (exec (getCachedNews env k)) w)
            = Returned Unreadable)).
Proof.
  intros Hraw Hparse.
  assert (Hrun : readCache env k w
                 = (Returned (if truthy raw then Unreadable else Missing),
                    w)).
  { rewrite readCache_run, Hraw, Hparse. now destruct (truthy raw). }
  assert (Hres : result (getCachedNews env k) w = Returned None).
  { unfold result. rewrite getCachedNews_run. unfold result.
    rewrite Hrun. simpl. now destruct (truthy raw). }
  assert (Hex : exec (getCachedNews env k) w = w).
  { unfold exec. rewrite getCachedNews_run. unfold exec.
    now rewrite Hrun. }
  assert (Hpath : raw <> [] -> result (readCache env k) w
                               = Returned Unreadable).
  { intros Hne. unfold result. rewrite Hrun.
    now rewrite (truthy_nonempty _ Hne). }
  assert (Hiter : forall n, Nat.iter n (exec (getCachedNews env k)) w = w).
  { induction n as [|n IH]; [reflexivity|]. simpl. now rewrite IH. }
  repeat split; try assumption.
  - now rewrite Hex.
  - intros key. now rewrite Hex.
  - apply Hiter.
  - now rewrite Hiter.
  - rewrite Hiter. assumption.
Qed.

(** ** graph.ts: the three writes *)

Lemma setTodos_run (f : list TodoItem -> list TodoItem) (w : World) :
  setTodos f w
  = (Returned tt, log (EvSetTodos (f (todos w))) (with_todos (f (todos w)) w)).
Proof. reflexivity. Qed.

Lemma import_graph_run (w : World) :
  import_graph env w
  = (if import_resolves env (trace w) then Returned tt else Thrown, w).
Proof.
  unfold import_graph. run. now destruct (import_resolves env (trace w)).
Qed.

Lemma updateTodoTask_run (l t : jsstring) (s : TaskStatus) (w : World) :
  updateTodoTask env l t s w =
  match acquireToken env (trace w) with
  | None => (Thrown, w)
  | Some _ =>
      (if graph_update env (trace w) l t s then Returned tt else Thrown,
       log (EvUpdateTask l t s) w)
  end.
Proof.
  unfold updateTodoTask, getAccessToken, request. run.
  destruct (acquireToken env (trace w)); simpl; [|reflexivity].
  now destruct (graph_update env (trace w) l t s).
Qed.

Lemma deleteTodoTask_run (l t : jsstring) (w : World) :
  deleteTodoTask env l t w =
  match acquireToken env (trace w) with
  | None => (Thrown, w)
  | Some _ =>
      (if graph_delete env (trace w) l t then Returned tt else Thrown,
       log (EvDeleteTask l t) w)
  end.
Proof.
  unfold deleteTodoTask, getAccessToken, request. run.
  destruct (acquireToken env (trace w)); simpl; [|reflexivity].
  now destruct (graph_delete env (trace w) l t).
Qed.

Lemma createTodoTask_run (l t : jsstring) (w : World) :
  createTodoTask env l t w =
  match acquireToken env (trace w) with
  | None => (Thrown, w)
  | Some _ =>
      (match graph_create env (trace w) l t with
       | Some task => Returned task
       | None => Thrown
       end,
       log (EvCreateTask l t) w)
  end.
Proof.
  unfold createTodoTask, getAccessToken, request. run.
  destruct (acquireToken env (trace w)); simpl; [|reflexivity].
  now destruct (graph_create env (trace w) l t).
Qed.

Lemma getTodoLists_run (w : World) :
  getTodoLists env w =
  match acquireToken env (trace w) with
  | None => (Returned [], w)
  | Some _ =>
      (Returned match graph_lists env (trace w) with
                | Some data => nullish data []
                | None => []
                end,
       log EvGetLists w)
  end.
Proof.
  unfold getTodoLists, getAccessToken, request. run.
  destruct (acquireToken env (trace w)); simpl; [|reflexivity].
  now destruct (graph_lists env (trace w)).
Qed.

(** The remote calls leave the React state alone. *)
Lemma updateTodoTask_todos (l t : jsstring) (s : TaskStatus) (w : World) :
  todos (exec (import_graph env;; updateTodoTask env l t s) w) = todos w.
Proof.
  unfold exec, mbind, Eff_bind.
  rewrite import_graph_run.
  destruct (import_resolves env (trace w)); [|reflexivity].
  rewrite updateTodoTask_run.
  now destruct (acquireToken env (trace w)).
Qed.

Lemma deleteTodoTask_todos (l t : jsstring) (w : World) :
  todos (exec (import_graph env;; deleteTodoTask env l t) w) = todos w.
Proof.
  unfold exec, mbind, Eff_bind.
  rewrite import_graph_run.
  destruct (import_resolves env (trace w)); [|reflexivity].
  rewrite deleteTodoTask_run.
  now destruct (acquireToken env (trace w)).
Qed.

Lemma getTodoLists_todos (w : World) :
  todos (exec (import_graph env;; getTodoLists env) w) = todos w.
Proof.
  unfold exec, mbind, Eff_bind.
  rewrite import_graph_run.
  destruct (import_resolves env (trace w)); [|reflexivity].
  rewrite getTodoLists_run.
  now destruct (acquireToken env (trace w)).
Qed.

Lemma createTodoTask_todos (l t : jsstring) (w : World) :
  todos (exec (createTodoTask env l t) w) = todos w.
Proof.
  unfold exec. rewrite createTodoTask_run.
  now destruct (acquireToken env (trace w)).
Qed.

Lemma str_eqb_eq (a b : jsstring) : str_eqb a b = true <-> a = b.
Proof. unfold str_eqb. apply bool_decide_eq_true. Qed.

Lemma str_eqb_neq (a b : jsstring) : a <> b -> str_eqb a b = false.
Proof. unfold str_eqb. apply bool_decide_eq_false. Qed.

Lemma set_done_same (t : TodoItem) : set_done (done t) t = t.
Proof. now destruct t. Qed.

(** The item that an update by id writes in the place of the first
    match. *)
Lemma find_map_by_id (i : jsstring) (g : TodoItem -> TodoItem)
    (l : list TodoItem) (t : TodoItem) :
  (forall x, id (g x) = id x) ->
  List.find (fun x => str_eqb (id x) i) l = Some t ->
  List.find (fun x => str_eqb (id x) i)
    (map (fun x => if str_eqb (id x) i then g x else x) l)
  = Some (g t).
Proof.
  intros Hg. induction l as [|x l IH]; simpl; [discriminate|].
  destruct (str_eqb (id x) i) eqn:E.
  - intros [= ->]. simpl. now rewrite Hg, E.
  - intros H. simpl. rewrite E. auto.
Qed.

(** ** useTodos.ts *)

Lemma mark_mark (i : jsstring) (a b : bool) (l : list TodoItem) :
  mark i a (mark i b l) = mark i a l.
Proof.
  unfold mark. rewrite map_map. apply map_ext. intros t.
  destruct (str_eqb (id t) i) eqn:E; simpl; now rewrite E.
Qed.

Lemma find_mark (i : jsstring) (d : bool) (l : list TodoItem)
    (t : TodoItem) :
  List.find (fun x => str_eqb (id x) i) l = Some t ->
  List.find (fun x => str_eqb (id x) i) (mark i d l) = Some (set_done d t).
Proof. intros H. unfold mark. now apply find_map_by_id. Qed.

Lemma mark_done (i : jsstring) (d : bool) (l : list TodoItem)
    (t : TodoItem) :
  In t (mark i d l) -> id t = i -> done t = d.
Proof.
  unfold mark. rewrite in_map_iff. intros (x & Hx & _) Hi.
  destruct (str_eqb (id x) i) eqn:E.
  - now subst t.
  - subst t. apply str_eqb_eq in Hi. congruence.
Qed.

Lemma mark_others (i : jsstring) (d : bool) (l : list TodoItem) :
  List.filter (fun t => negb (str_eqb (id t) i)) (mark i d l)
  = List.filter (fun t => negb (str_eqb (id t) i)) l.
Proof.
  unfold mark. induction l as [|x l IH]; [reflexivity|]. simpl.
  destruct (str_eqb (id x) i) eqn:E; simpl; rewrite E; simpl;
    now rewrite IH.
Qed.

Lemma toggleTodo_run (i : jsstring) (todo : TodoItem) (w : World) :
  List.find (fun t => str_eqb (id t) i) (todos w) = Some todo ->
  listId todo <> lit "default" ->
  let newDone := negb (done todo) in
  let w1 := exec (setTodos (mark i newDone)) w in
  let call :=
    import_graph env;;
    updateTodoTask env (listId todo) (id todo) (status_for newDone) in
  toggleTodo env i w =
  match result call w1 with
  | Returned _ => (Returned tt, exec call w1)
  | Thrown => setTodos (mark i (negb newDone)) (exec call w1)
  end.
Proof.
  intros Hfind Hreal newDone w1 call.
  unfold toggleTodo.
  unfold mbind at 1. unfold Eff_bind at 1. unfold get at 1.
  rewrite Hfind. rewrite (str_eqb_neq _ _ Hreal). simpl negb.
  unfold mbind at 1. unfold Eff_bind at 1.
  change (setTodos _ w) with (setTodos (mark i newDone) w).
  rewrite (run_eta (setTodos (mark i newDone)) w).
  change (result (setTodos (mark i newDone)) w) with (Returned (A:=unit) tt).
  fold w1. cbv iota beta.
  unfold try_catch, result, exec, call, status_for, mark, newDone.
  match goal with
  | |- context [let (_, _) := ?x in _] => destruct x as [[[]|] w2]
  end; reflexivity.
Qed.

(** C4: toggling the item that the lookup by id finds, when it is not a
    local item.  If the remote update goes through, the item carries the
    negation of its earlier flag; if it fails, the item is exactly what
    it was before.  In both cases nothing else of an item changes, and
    the items with another id are not touched. *)
Theorem toggle_settles (i : jsstring) (todo : TodoItem) (w : World) :
  List.find (fun t => str_eqb (id t) i) (todos w) = Some todo ->
  listId todo <> lit "default" ->
  let newDone := negb (done todo) in
  let w1 := exec (setTodos (mark i newDone)) w in
  let call :=
    import_graph env;;
    updateTodoTask env (listId todo) (id todo) (status_for newDone) in
  let w' := exec (toggleTodo env i) w in
  (result call w1 = Returned tt ->
     todos w' = mark i (negb (done todo)) (todos w)
     /\ List.find (fun t => str_eqb (id t) i) (todos w')
        = Some (set_done (negb (done todo)) todo)
     /\ (forall t, In t (todos w') -> id t = i ->
                   done t = negb (done todo)))
  /\ (result call w1 = Thrown ->
     todos w' = mark i (done todo) (todos w)
     /\ List.find (fun t => str_eqb (id t) i) (todos w') = Some todo
     /\ (forall t, In t (todos w') -> id t = i -> done t = done todo))
  /\ List.filter (fun t => negb (str_eqb (id t) i)) (todos w')
     = List.filter (fun t => negb (str_eqb (id t) i)) (todos w).
Proof.
  intros Hfind Hreal newDone w1 call w'.
  pose proof (toggleTodo_run i todo w Hfind Hreal) as Hrun.
  cbv zeta in Hrun. fold newDone in Hrun. fold w1 in Hrun.
  fold call in Hrun.
  assert (Hcall : todos (exec call w1) = mark i newDone (todos w)).
  { unfold call. rewrite updateTodoTask_todos. reflexivity. }
  assert (Hok : result call w1 = Returned tt ->
                todos w' = mark i (negb (done todo)) (todos w)).
  { intros Hres. unfold w', exec at 1. rewrite Hrun, Hres. exact Hcall. }
  assert (Hko : result call w1 = Thrown ->
                todos w' = mark i (done todo) (todos w)).
  { intros Hres. unfold w', exec at 1. rewrite Hrun, Hres.
    rewrite setTodos_run. simpl. rewrite Hcall.
    unfold newDone. rewrite mark_mark, negb_involutive. reflexivity. }
  split; [|split].
  - intros Hres. rewrite (Hok Hres). split; [reflexivity|]. split.
    + now apply find_mark.
    + intros t. apply mark_done.
  - intros Hres. rewrite (Hko Hres). split; [reflexivity|]. split.
    + rewrite (find_mark i (done todo) _ _ Hfind).
      now rewrite set_done_same.
    + intros t. apply mark_done.
  - destruct (result call w1) as [[]|] eqn:Hres.
    + rewrite (Hok eq_refl). apply mark_others.
    + rewrite (Hko eq_refl). apply mark_others.
Qed.

Lemma find_Tasks_some (ls : list TodoList) (dl : TodoList) :
  List.find (fun l => str_eqb (displayName l) (lit "Tasks")) ls = Some dl
  <-> exists pre post,
        ls = pre ++ dl :: post /\ displayName dl = lit "Tasks"
        /\ Forall (fun l => displayName l <> lit "Tasks") pre.
Proof.
  split.
  - induction ls as [|x ls IH]; simpl; [discriminate|].
    destruct (str_eqb (displayName x) (lit "Tasks")) eqn:E.
    + intros [= ->]. exists [], ls. apply str_eqb_eq in E. auto.
    + intros H. destruct (IH H) as (pre & post & -> & Hn & Hpre).
      exists (x :: pre), post. repeat split; auto.
      constructor; auto. intros Hx. apply str_eqb_eq in Hx. congruence.
  - intros (pre & post & -> & Hn & Hpre).
    induction Hpre as [|x pre Hx _ IH]; simpl.
    + apply str_eqb_eq in Hn. now rewrite Hn.
    + now rewrite (str_eqb_neq _ _ Hx).
Qed.

Lemma find_Tasks_none (ls : list TodoList) :
  List.find (fun l => str_eqb (displayName l) (lit "Tasks")) ls = None
  <-> Forall (fun l => displayName l <> lit "Tasks") ls.
Proof.
  induction ls as [|x ls IH]; simpl.
  - split; auto.
  - destruct (str_eqb (displayName x) (lit "Tasks")) eqn:E.
    + split; [discriminate|]. intros H. inversion H; subst.
      apply str_eqb_eq in E. contradiction.
    + rewrite IH. split.
      * intros H. constructor; auto.
        intros Hx. apply str_eqb_eq in Hx. congruence.
      * intros H. now inversion H.
Qed.

Lemma defaultListOf_spec (ls : list TodoList) (dl : TodoList) :
  defaultListOf ls = Some dl <-> resolves_to ls dl.
Proof.
  unfold defaultListOf. split.
  - destruct (List.find _ ls) as [l|] eqn:E.
    + intros [= ->]. apply find_Tasks_some in E as (pre & post & ? & ? & ?).
      eapply resolved_by_name; eauto.
    + apply find_Tasks_none in E. destruct ls as [|x ls]; simpl.
      * discriminate.
      * intros [= ->]. eapply resolved_by_position; eauto.
  - intros [pre post Hls Hn Hpre | rest Hls Hall].
    + assert (E : List.find
                    (fun l => str_eqb (displayName l) (lit "Tasks")) ls
                  = Some dl)
        by (apply find_Tasks_some; eauto).
      now rewrite E.
    + apply find_Tasks_none in Hall. rewrite Hall. now subst ls.
Qed.

Lemma defaultListOf_none (ls : list TodoList) :
  defaultListOf ls = None <-> ls = [].
Proof.
  unfold defaultListOf.
  destruct (List.find _ ls) as [l|] eqn:E.
  - split; [discriminate|]. intros ->. discriminate.
  - destruct ls; simpl; split; congruence.
Qed.

Lemma addTodo_run (txt : jsstring) (w : World) :
  trim txt <> [] ->
  let resolve := import_graph env;; getTodoLists env in
  let w1 := exec resolve w in
  addTodo env txt w =
  match result resolve w with
  | Thrown => (Returned tt, w1)
  | Returned ls =>
      match defaultListOf ls with
      | None => (Returned tt, w1)
      | Some dl =>
          let create := createTodoTask env (list_id dl) txt in
          match result create w1 with
          | Thrown => (Returned tt, exec create w1)
          | Returned newTask =>
              setTodos (fun prev => created_item dl newTask :: prev)
                (exec create w1)
          end
      end
  end.
Proof.
  intros Htxt resolve w1. unfold addTodo.
  rewrite (truthy_nonempty _ Htxt). change (negb true) with false.
  unfold w1, resolve, result, exec, try_catch, mbind, Eff_bind, mret,
    Eff_ret.
  cbv beta iota.
  destruct (import_graph env w) as [[[]|] wi]; simpl; [|reflexivity].
  destruct (getTodoLists env wi) as [[ls|] wl]; simpl; [|reflexivity].
  destruct (defaultListOf ls) as [dl|]; simpl; [|reflexivity].
  destruct (createTodoTask env (list_id dl) txt wl) as [[nt|] wc]; simpl;
    reflexivity.
Qed.

(** C5: creating a task from a text that is not blank.  The list is
    resolved remotely (the first list named [Tasks], else the first
    list), then the task is created remotely.  When both succeed, one
    item is put in front of the collection, built from the identifier,
    title and status of the created task and the identifier of the
    resolved list.  When the lists cannot be loaded, when there is no
    list, or when the creation fails, the collection is what it was.
    So the collection changes only in the first case. *)
Theorem addTodo_atomic (txt : jsstring) (w : World) :
  trim txt <> [] ->
  let resolve := import_graph env;; getTodoLists env in
  let w1 := exec resolve w in
  let w' := exec (addTodo env txt) w in
  (forall ls dl newTask,
      result resolve w = Returned ls ->
      resolves_to ls dl ->
      result (createTodoTask env (list_id dl) txt) w1 = Returned newTask ->
      todos w'
      = {| id := gt_id newTask; listId := list_id dl; listName := None;
           item_wellknownListName := None; text := gt_title newTask;
           done := status_eqb (gt_status newTask) completed |}
        :: todos w)
  /\ (result resolve w = Thrown
      \/ result resolve w = Returned []
      \/ (exists ls dl,
            result resolve w = Returned ls /\ resolves_to ls dl
            /\ result (createTodoTask env (list_id dl) txt) w1 = Thrown) ->
      todos w' = todos w)
  /\ (todos w' <> todos w ->
      exists ls dl newTask,
        result resolve w = Returned ls /\ resolves_to ls dl
        /\ result (createTodoTask env (list_id dl) txt) w1
           = Returned newTask
        /\ todos w' = created_item dl newTask :: todos w).
Proof.
  intros Htxt resolve w1 w'.
  pose proof (addTodo_run txt w Htxt) as Hrun.
  cbv zeta in Hrun. fold resolve in Hrun. fold w1 in Hrun.
  assert (Hw1 : todos w1 = todos w) by apply getTodoLists_todos.
  assert (Hok : forall ls dl newTask,
             result resolve w = Returned ls ->
             defaultListOf ls = Some dl ->
             result (createTodoTask env (list_id dl) txt) w1
             = Returned newTask ->
             todos w' = created_item dl newTask :: todos w).
  { intros ls dl newTask Hls Hdl Hnew.
    unfold w', exec at 1. rewrite Hrun, Hls, Hdl, Hnew.
    rewrite setTodos_run. simpl.
    now rewrite createTodoTask_todos, Hw1. }
  assert (Hko : forall ls dl,
             result resolve w = Returned ls ->
             defaultListOf ls = Some dl ->
             result (createTodoTask env (list_id dl) txt) w1 = Thrown ->
             todos w' = todos w).
  { intros ls dl Hls Hdl Hnew.
    unfold w', exec at 1. rewrite Hrun, Hls, Hdl, Hnew. simpl.
    now rewrite createTodoTask_todos, Hw1. }
  split; [|split].
  - intros ls dl newTask Hls Hdl Hnew.
    apply defaultListOf_spec in Hdl. exact (Hok ls dl newTask Hls Hdl Hnew).
  - intros [Hres | [Hres | (ls & dl & Hls & Hdl & Hnew)]].
    + unfold w', exec at 1. now rewrite Hrun, Hres.
    + unfold w', exec at 1. now rewrite Hrun, Hres.
    + apply defaultListOf_spec in Hdl. exact (Hko ls dl Hls Hdl Hnew).
  - intros Hchanged.
    destruct (result resolve w) as [ls|] eqn:Hls.
    + destruct (defaultListOf ls) as [dl|] eqn:Hdl.
      * destruct (result (createTodoTask env (list_id dl) txt) w1)
          as [newTask|] eqn:Hnew.
        -- exists ls, dl, newTask.
           split; [first [reflexivity | assumption]|].
           split; [now apply defaultListOf_spec|].
           split; [first [reflexivity | assumption]|].
           eapply Hok; eauto.
        -- exfalso. apply Hchanged. eapply Hko; eauto.
      * exfalso. apply Hchanged.
        unfold w', exec at 1. rewrite Hrun. simpl. exact Hw1.
    + exfalso. apply Hchanged.
      unfold w', exec at 1. rewrite Hrun. simpl. exact Hw1.
Qed.

Lemma deleteTodo_run (i : jsstring) (todo : TodoItem) (w : World) :
  List.find (fun t => str_eqb (id t) i) (todos w) = Some todo ->
  listId todo <> lit "default" ->
  let w1 :=
    exec (setTodos (List.filter (fun t => negb (str_eqb (id t) i)))) w in
  let call :=
    import_graph env;; deleteTodoTask env (listId todo) (id todo) in
  deleteTodo env i w =
  match result call w1 with
  | Returned _ => (Returned tt, exec call w1)
  | Thrown => setTodos (fun prev => prev ++ [todo]) (exec call w1)
  end.
Proof.
  intros Hfind Hreal w1 call.
  unfold deleteTodo.
  unfold mbind at 1. unfold Eff_bind at 1. unfold get at 1.
  rewrite Hfind. rewrite (str_eqb_neq _ _ Hreal).
  change (negb false) with true.
  unfold mbind at 1. unfold Eff_bind at 1.
  rewrite (run_eta (setTodos _) w).
  change (result (setTodos _) w) with (Returned (A:=unit) tt).
  fold w1. cbv iota beta.
  unfold try_catch, result, exec, call.
  match goal with
  | |- context [let (_, _) := ?x in _] => destruct x as [[[]|] w2]
  end; reflexivity.
Qed.

Lemma find_some_id (i : jsstring) (l : list TodoItem) (t : TodoItem) :
  List.find (fun x => str_eqb (id x) i) l = Some t -> In t l /\ id t = i.
Proof.
  intros H. apply find_some in H as [Hin Hid].
  split; [assumption | now apply str_eqb_eq].
Qed.

(** In a collection without repeated identifiers, the lookup by the
    identifier of an item finds that item. *)
Lemma find_unique_id (l : list TodoItem) (t : TodoItem) :
  NoDup (map id l) -> In t l ->
  List.find (fun x => str_eqb (id x) (id t)) l = Some t.
Proof.
  induction l as [|a l IH]; simpl; [contradiction|].
  intros Hnd [-> | Hin].
  - unfold str_eqb. now rewrite bool_decide_eq_true_2.
  - inversion Hnd as [|? ? Hnotin Hnd']; subst.
    destruct (str_eqb (id a) (id t)) eqn:E.
    + exfalso. apply Hnotin. apply str_eqb_eq in E. rewrite E.
      apply list_elem_of_In. now apply in_map.
    + now apply IH.
Qed.

(** The events of a remote deletion. *)
Lemma deleteTodoTask_trace (l t : jsstring) (w : World) :
  exists calls,
    trace (exec (import_graph env;; deleteTodoTask env l t) w)
    = trace w ++ calls
    /\ (calls = [] \/ calls = [EvDeleteTask l t]).
Proof.
  unfold exec, mbind, Eff_bind. rewrite import_graph_run.
  destruct (import_resolves env (trace w)).
  - rewrite deleteTodoTask_run.
    destruct (acquireToken env (trace w)); simpl.
    + exists [EvDeleteTask l t]. auto.
    + exists []. rewrite app_nil_r. auto.
  - exists []. simpl. rewrite app_nil_r. auto.
Qed.

(** C6: deleting the item that the lookup by id finds, when it is not a
    local item.  The collection without the item is published first,
    before any request leaves.  If the remote deletion then fails, the
    very item that was found, with all its fields, is appended to the
    collection; if it succeeds, the collection stays without it. *)
Theorem delete_rolls_back (i : jsstring) (todo : TodoItem) (w : World) :
  List.find (fun t => str_eqb (id t) i) (todos w) = Some todo ->
  listId todo <> lit "default" ->
  let kept := List.filter (fun t => negb (str_eqb (id t) i)) (todos w) in
  let w1 :=
    exec (setTodos (List.filter (fun t => negb (str_eqb (id t) i)))) w in
  let call :=
    import_graph env;; deleteTodoTask env (listId todo) (id todo) in
  let w' := exec (deleteTodo env i) w in
  In todo (todos w)
  /\ todos w1 = kept
  /\ ~ In todo kept
  /\ (exists calls,
        (calls = [] \/ calls = [EvDeleteTask (listId todo) (id todo)])
        /\ trace w'
           = trace w ++ [EvSetTodos kept] ++ calls
             ++ match result call w1 with
                | Returned _ => []
                | Thrown => [EvSetTodos (kept ++ [todo])]
                end)
  /\ (result call w1 = Returned tt -> todos w' = kept)
  /\ (result call w1 = Thrown ->
      todos w' = kept ++ [todo] /\ In todo (todos w')).
Proof.
  intros Hfind Hreal kept w1 call w'.
  pose proof (deleteTodo_run i todo w Hfind Hreal) as Hrun.
  cbv zeta in Hrun. fold w1 in Hrun. fold call in Hrun.
  destruct (find_some_id _ _ _ Hfind) as [Hin Hid].
  assert (Hcall : todos (exec call w1) = kept).
  { unfold call. rewrite deleteTodoTask_todos. reflexivity. }
  split; [exact Hin|]. split; [reflexivity|]. split.
  { unfold kept. rewrite filter_In. intros [_ Hne].
    apply negb_true_iff in Hne.
    assert (Heq : str_eqb (id todo) i = true) by now apply str_eqb_eq.
    congruence. }
  split.
  { destruct (deleteTodoTask_trace (listId todo) (id todo) w1)
      as (calls & Htr & Hcalls).
    fold call in Htr.
    exists calls. split; [exact Hcalls|].
    unfold w', exec at 1. rewrite Hrun.
    destruct (result call w1) as [[]|].
    - simpl. rewrite Htr. unfold w1. simpl.
      now rewrite app_nil_r, <- !app_assoc.
    - rewrite setTodos_run. simpl. rewrite Htr, Hcall. unfold w1. simpl.
      now rewrite <- !app_assoc. }
  split.
  - intros Hres. unfold w', exec at 1. rewrite Hrun, Hres. exact Hcall.
  - intros Hres.
    assert (Hw' : todos w' = kept ++ [todo]).
    { unfold w', exec at 1. rewrite Hrun, Hres, setTodos_run. simpl.
      now rewrite Hcall. }
    split; [exact Hw'|]. rewrite Hw'. apply in_or_app. right. now left.
Qed.

(** ** graph.ts: the tasks of a list *)

Lemma getTasksForList_run (l n wk : jsstring) (w : World) :
  getTasksForList env l n wk w =
  match acquireToken env (trace w) with
  | None => (Returned [], w)
  | Some _ =>
      let todayStart := setUTCHours_0_0_0_0 (clock env (ticks w)) in
      let todayEnd := setUTCHours_23_59_59_999 (clock env (S (ticks w))) in
      (Returned
         match graph_tasks env (trace w) l NotCompleted,
               graph_tasks env (trace w ++ [EvGetTasks l NotCompleted]) l
                 RecentlyCompleted with
         | Body ncs, Body cs =>
             List.filter (relevantNotCompleted env todayEnd)
               (map (mapTask l n wk) (nullish ncs []))
             ++ List.filter (completedToday env todayStart todayEnd)
                  (map (mapTask l n wk) (nullish cs []))
         | _, _ => []
         end,
       after_queries l w)
  end.
Proof.
  unfold getTasksForList, getAccessToken, Date_now, after_queries. run.
  destruct (acquireToken env (trace w)); simpl; [|reflexivity].
  destruct (graph_tasks env (trace w) l NotCompleted); simpl;
    [reflexivity|].
  destruct (graph_tasks env (trace w ++ [EvGetTasks l NotCompleted]) l
              RecentlyCompleted); reflexivity.
Qed.

Lemma le_end_of_day (d now : Z) :
  d <= setUTCHours_23_59_59_999 now <-> utcDay d <= utcDay now.
Proof.
  unfold setUTCHours_23_59_59_999, utcDay, msPerDay. div_lia.
Qed.

Lemma ge_start_of_day (d now : Z) :
  setUTCHours_0_0_0_0 now <= d <-> utcDay now <= utcDay d.
Proof. unfold setUTCHours_0_0_0_0, utcDay, msPerDay. div_lia. Qed.

Lemma relevantNotCompleted_spec (now : Z) (task : TodoTask) :
  relevantNotCompleted env (setUTCHours_23_59_59_999 now) task = true
  <-> exists d, deciding_date env task = Some d /\ utcDay d <= utcDay now.
Proof.
  unfold relevantNotCompleted, deciding_date, date_le.
  destruct (task_dueDateTime task) as [due|].
  - destruct (Date_parse env (dateTime due ++ lit "Z")) as [d|].
    + rewrite Z.leb_le, le_end_of_day. split; eauto.
      now intros (d' & [= <-] & H).
    + split; [discriminate|]. now intros (d' & [=] & _).
  - destruct (Date_parse env (task_createdDateTime task)) as [d|].
    + rewrite Z.leb_le, le_end_of_day. split; eauto.
      now intros (d' & [= <-] & H).
    + split; [discriminate|]. now intros (d' & [=] & _).
Qed.

Lemma completedToday_spec (t0 t1 : Z) (task : TodoTask) :
  completedToday env (setUTCHours_0_0_0_0 t0) (setUTCHours_23_59_59_999 t1)
    task = true
  <-> exists d, Date_parse env (task_createdDateTime task) = Some d
                /\ utcDay t0 <= utcDay d <= utcDay t1.
Proof.
  unfold completedToday, date_le, date_ge.
  destruct (Date_parse env (task_createdDateTime task)) as [d|].
  - rewrite andb_true_iff, !Z.leb_le, le_end_of_day, ge_start_of_day.
    split; eauto. now intros (d' & [= <-] & H).
  - simpl. split; [discriminate|]. now intros (d' & [=] & _).
Qed.

Lemma relevantNotCompleted_days (now : Z) (task : TodoTask) :
  relevantNotCompleted env (setUTCHours_23_59_59_999 now) task
  = on_or_before (utcDay now) (deciding_date env task).
Proof.
  apply eq_true_iff_eq. rewrite relevantNotCompleted_spec.
  unfold on_or_before. destruct (deciding_date env task) as [d|].
  - rewrite Z.leb_le. split; eauto. now intros (d' & [= <-] & H).
  - split; [|discriminate]. now intros (d' & [=] & _).
Qed.

Lemma completedToday_days (t0 t1 : Z) (task : TodoTask) :
  completedToday env (setUTCHours_0_0_0_0 t0) (setUTCHours_23_59_59_999 t1)
    task
  = within_days (utcDay t0) (utcDay t1)
      (Date_parse env (task_createdDateTime task)).
Proof.
  apply eq_true_iff_eq. rewrite completedToday_spec.
  unfold within_days.
  destruct (Date_parse env (task_createdDateTime task)) as [d|].
  - rewrite andb_true_iff, !Z.leb_le. split; eauto.
    now intros (d' & [= <-] & H).
  - split; [|discriminate]. now intros (d' & [=] & _).
Qed.

(** C9, as amended: the tasks [getTasksForList] returns when both
    queries are answered.  The days are UTC days.  A task of the
    not-completed answer is kept exactly when its due date, or its
    creation date when it has no due date, is a valid date on a UTC day
    that is not after the current one.  A task of the completed answer
    is kept exactly when its creation date is a valid date on the
    current UTC day.  The kept tasks come in the order of the answers,
    the not-completed ones first.  The current day is read from the
    clock twice, once for its start and once for its end. *)
Theorem getTasksForList_keeps (l n wk token : jsstring)
    (ncs cs : option (list GraphTask)) (w : World) :
  acquireToken env (trace w) = Some token ->
  graph_tasks env (trace w) l NotCompleted = Body ncs ->
  graph_tasks env (trace w ++ [EvGetTasks l NotCompleted]) l
    RecentlyCompleted = Body cs ->
  let day0 := utcDay (clock env (ticks w)) in
  let day1 := utcDay (clock env (S (ticks w))) in
  let notCompleted := map (mapTask l n wk) (nullish ncs []) in
  let completedOnes := map (mapTask l n wk) (nullish cs []) in
  exists keptN keptC,
    result (getTasksForList env l n wk) w = Returned (keptN ++ keptC)
    /\ keptN
       = List.filter (fun t => on_or_before day1 (deciding_date env t))
           notCompleted
    /\ keptC
       = List.filter
           (fun t => within_days day0 day1
                       (Date_parse env (task_createdDateTime t)))
           completedOnes
    /\ (forall t, In t keptN <->
                  In t notCompleted
                  /\ exists d, deciding_date env t = Some d
                               /\ utcDay d <= day1)
    /\ (forall t, In t keptC <->
                  In t completedOnes
                  /\ exists d,
                       Date_parse env (task_createdDateTime t) = Some d
                       /\ day0 <= utcDay d <= day1).
Proof.
  intros Htok Hnc Hc day0 day1 notCompleted completedOnes.
  unfold result. rewrite getTasksForList_run, Htok, Hnc, Hc. cbv zeta.
  cbn [fst].
  do 2 eexists. split; [reflexivity|].
  fold notCompleted completedOnes.
  split; [|split; [|split]].
  - apply filter_ext. intros t. apply relevantNotCompleted_days.
  - apply filter_ext. intros t. apply completedToday_days.
  - intros t. rewrite filter_In, relevantNotCompleted_spec. reflexivity.
  - intros t. rewrite filter_In, completedToday_spec. reflexivity.
Qed.

(** ** graph.ts: the tasks of all lists *)

Lemma getTasksForList_trace (l n wk : jsstring) (w : World) :
  exists (found : list TodoTask) (fetched : bool),
    result (getTasksForList env l n wk) w = Returned found
    /\ trace (exec (getTasksForList env l n wk) w)
       = trace w
         ++ (if fetched
             then [EvGetTasks l NotCompleted; EvGetTasks l RecentlyCompleted]
             else []).
Proof.
  unfold result, exec. rewrite getTasksForList_run.
  destruct (acquireToken env (trace w)).
  - eexists _, true. split; [reflexivity|]. simpl.
    now rewrite <- app_assoc.
  - exists [], false. split; [reflexivity|]. simpl. now rewrite app_nil_r.
Qed.

Lemma forLists_run (valid : list TodoList) :
  forall (acc : list (list TodoTask)) (w : World),
  exists (per : list (list TodoTask)) (fetched : list bool),
    result (forLists env valid acc) w = Returned (acc ++ per)
    /\ length per = length valid
    /\ length fetched = length valid
    /\ Sequential env valid w per (exec (forLists env valid acc) w)
    /\ trace (exec (forLists env valid acc) w)
       = trace w ++ concat (zip_with window valid fetched).
Proof.
  induction valid as [|l rest IH]; intros acc w.
  - exists [], []. simpl. rewrite !app_nil_r.
    repeat split; constructor.
  - destruct (getTasksForList_trace (list_id l) (displayName l)
                (wellknownListName l) w) as (found & f & Hres & Htr).
    set (fetch := getTasksForList env (list_id l) (displayName l)
                    (wellknownListName l)) in *.
    set (w1 := exec (delay 150) (exec fetch w)).
    destruct (IH (acc ++ [found]) w1) as (per & fs & Hr & Hlp & Hlf & Hseq & Ht).
    assert (Hstep : forLists env (l :: rest) acc w
                    = forLists env rest (acc ++ [found]) w1).
    { cbn [forLists]. fold fetch.
      rewrite (exec_bind fetch _ w found Hres). reflexivity. }
    exists (found :: per), (f :: fs).
    unfold result, exec in *. rewrite Hstep.
    split; [rewrite Hr; now rewrite <- app_assoc|].
    split; [simpl; congruence|].
    split; [simpl; congruence|].
    split.
    + eapply Sequential_cons; [exact Hres | exact Hseq].
    + rewrite Ht. unfold w1, exec. simpl. fold fetch.
      unfold exec in Htr. rewrite Htr. unfold window.
      now rewrite <- !app_assoc.
Qed.

Lemma window_requests (valid : list TodoList) :
  forall (fetched : list bool) (lid : jsstring) (q : TaskQuery),
    In (EvGetTasks lid q) (concat (zip_with window valid fetched)) ->
    exists l, In l valid /\ list_id l = lid.
Proof.
  induction valid as [|l rest IH]; intros [|f fs] lid q; simpl;
    try contradiction.
  rewrite in_app_iff. intros [Hin | Hin].
  - exists l. split; [now left|].
    unfold window in Hin. apply in_app_iff in Hin as [Hin | Hin].
    + destruct f; simpl in Hin; [|contradiction].
      destruct Hin as [[= -> _] | [[= -> _] | []]]; reflexivity.
    + simpl in Hin. destruct Hin as [[=] | []].
  - destruct (IH fs lid q Hin) as (l' & Hl' & Hid).
    exists l'. split; [now right | assumption].
Qed.

(** C7: the lists that the remote read returned, the flagged-emails
    list left out, are gone through one after the other.  Each list
    accounts for a window of effects, its two requests and then a pause
    of 150 ms, and the windows follow one another in the order of the
    lists; the fetch of a list starts in the world left by the window
    before it.  The tasks returned are the results of the lists, one
    after the other, so their number is the sum of the numbers found
    per list.  No request is made for a list that was left out. *)
Theorem getTodoItems_sequential (ls : list TodoList) (w : World) :
  result (getTodoLists env) w = Returned ls ->
  let valid := List.filter not_flagged ls in
  let w0 := exec (getTodoLists env) w in
  let w' := exec (getTodoItems env) w in
  exists (per : list (list TodoTask)) (fetched : list bool),
    result (getTodoItems env) w
    = Returned {| tasks := concat per; lists := valid |}
    /\ length per = length valid
    /\ length fetched = length valid
    /\ Sequential env valid w0 per w'
    /\ trace w' = trace w0 ++ concat (zip_with window valid fetched)
    /\ length (concat per) = list_sum (map (@length TodoTask) per)
    /\ (forall l, In l valid <->
                  In l ls /\ wellknownListName l <> lit "flaggedEmails")
    /\ (forall lid q,
          In (EvGetTasks lid q) (concat (zip_with window valid fetched)) ->
          exists l, In l ls /\ list_id l = lid
                    /\ wellknownListName l <> lit "flaggedEmails").
Proof.
  intros Hls valid w0 w'.
  assert (Hvalid : forall l, In l valid <->
                     In l ls /\ wellknownListName l <> lit "flaggedEmails").
  { intros l. unfold valid. rewrite filter_In. unfold not_flagged.
    rewrite negb_true_iff. unfold str_eqb. rewrite bool_decide_eq_false.
    reflexivity. }
  destruct (forLists_run valid [] w0) as (per & fs & Hr & Hlp & Hlf & Hseq & Ht).
  assert (Hrun : getTodoItems env w
                 = (Returned {| tasks := concat per; lists := valid |},
                    if (length ls =? 0)%nat then w0
                    else exec (forLists env valid []) w0)).
  { unfold getTodoItems, try_catch.
    rewrite (exec_bind (getTodoLists env) _ w ls Hls). fold w0.
    destruct ls as [|x ls'].
    - simpl in *. unfold valid in *. simpl in *.
      destruct per; [reflexivity | discriminate].
    - cbn [length Nat.eqb]. fold not_flagged. fold valid.
      rewrite (exec_bind (forLists env valid []) _ w0 per Hr).
      reflexivity. }
  assert (Hw' : w' = exec (forLists env valid []) w0).
  { unfold w', exec at 1. rewrite Hrun. simpl.
    destruct ls as [|x ls']; [|reflexivity].
    reflexivity. }
  exists per, fs.
  split; [unfold result; now rewrite Hrun|].
  split; [exact Hlp|]. split; [exact Hlf|].
  split; [now rewrite Hw'|].
  split; [now rewrite Hw'|].
  split; [apply length_concat|].
  split; [exact Hvalid|].
  intros lid q Hin.
  destruct (window_requests valid fs lid q Hin) as (l & Hl & Hid).
  apply Hvalid in Hl as [Hl Hflag]. eauto.
Qed.

(** ** useNewsData.ts *)

(** C8: the user key is the one passed, or else the one of the state.
    When the storage holds, under that key, an entry that parses, is
    not older than the TTL and has at least one article, the feed
    publishes exactly the articles of that entry, turns the loading
    flag off and stops: the two publications are the only effects, so
    no topics are generated and no articles are fetched, and the
    storage is left as it was. *)
Theorem cache_hit_publishes (p : UserProfile) (uid : option jsstring)
    (raw : jsstring) (entry : NewsCacheEntry) (w : World) :
  let k := nullish uid (userId w) in
  localStorage w !! getCacheKey k = Some raw ->
  raw <> [] ->
  JSON_parse env raw = Some entry ->
  clock env (ticks w) - cachedAt entry <= CACHE_TTL_MS ->
  articles entry <> [] ->
  let w' := exec (generateTopicsAndFetch env p uid) w in
  result (generateTopicsAndFetch env p uid) w = Returned tt
  /\ news w' = articles entry
  /\ loading w' = false
  /\ trace w'
     = trace w ++ [EvSetNews (articles entry); EvSetLoading false]
  /\ Forall (fun e => is_request e = false)
       [EvSetNews (articles entry); EvSetLoading false]
  /\ localStorage w' = localStorage w
  /\ todos w' = todos w
  /\ apiError w' = apiError w.
Proof.
  intros k Hraw Hne Hparse Hfresh Harts w'.
  assert (Hread : getCachedNews env k w = (Returned (Some entry), tick w)).
  { rewrite getCachedNews_run. unfold result, exec.
    rewrite readCache_run, Hraw, (truthy_nonempty _ Hne), Hparse.
    destruct (Z.gtb_spec (clock env (ticks w) - cachedAt entry)
                CACHE_TTL_MS); [lia | reflexivity]. }
  assert (Hlen : (0 <? length (articles entry))%nat = true).
  { destruct (articles entry); [congruence | reflexivity]. }
  assert (Hrun : generateTopicsAndFetch env p uid w
                 = (setNews (articles entry);; setLoading false) (tick w)).
  { unfold generateTopicsAndFetch.
    unfold mbind at 1. unfold Eff_bind at 1. unfold get at 1.
    fold k.
    unfold mbind at 1. unfold Eff_bind at 1.
    rewrite Hread. cbv iota beta zeta. rewrite Hlen. reflexivity. }
  unfold w', result, exec. rewrite Hrun. simpl.
  repeat split; try (repeat constructor; fail).
  now rewrite <- app_assoc.
Qed.

(* ===================================================================== *)
(** ** Further properties *)
(* ===================================================================== *)

(** ** newsCache.ts *)

Lemma clearCachedNews_run (k : jsstring) (w : World) :
  clearCachedNews k w
  = (Returned tt,
     with_storage (delete (getCacheKey k) (localStorage w)) w).
Proof. reflexivity. Qed.

Lemma cacheAgeMinutes_run (k : jsstring) (w : World) :
  cacheAgeMinutes env k w =
  match localStorage w !! getCacheKey k with
  | None => (Returned 0, w)
  | Some raw =>
      if truthy raw then
        match JSON_parse env raw with
        | None => (Returned 0, w)
        | Some e =>
            (Returned
               (Z.max 0
                  ((CACHE_TTL_MS - (clock env (ticks w) - cachedAt e))
                   / 60000)),
             tick w)
        end
      else (Returned 0, w)
  end.
Proof.
  unfold cacheAgeMinutes, getItem, Date_now. run.
  destruct (localStorage w !! getCacheKey k) as [raw|]; [|reflexivity].
  destruct (truthy raw); simpl; [|reflexivity].
  destruct (JSON_parse env raw) as [e|]; reflexivity.
Qed.

(** X1: clearing the cache of [k] never fails and removes the record of
    [k]; a read that follows finds nothing, from the first test and
    without reading the clock; the remaining minutes are then 0; and
    clearing once more changes nothing. *)
Theorem clear_then_read (k : jsstring) (w : World) :
  let w1 := exec (clearCachedNews k) w in
  result (clearCachedNews k) w = Returned tt
  /\ localStorage w1 = delete (getCacheKey k) (localStorage w)
  /\ result (readCache env k) w1 = Returned Missing
  /\ result (getCachedNews env k) w1 = Returned None
  /\ exec (getCachedNews env k) w1 = w1
  /\ cacheAgeMinutes env k w1 = (Returned 0, w1)
  /\ exec (clearCachedNews k) w1 = w1.
Proof.
  intros w1.
  assert (Hw1 : w1 = with_storage (delete (getCacheKey k) (localStorage w)) w)
    by reflexivity.
  assert (Hgone : localStorage w1 !! getCacheKey k = None).
  { rewrite Hw1. simpl. apply lookup_delete_eq. }
  assert (Hread : readCache env k w1 = (Returned Missing, w1)).
  { rewrite readCache_run, Hgone. reflexivity. }
  split; [reflexivity|]. split; [reflexivity|].
  split; [unfold result; now rewrite Hread|].
  split; [unfold result; rewrite getCachedNews_run; unfold result;
          now rewrite Hread|].
  split; [unfold exec; rewrite getCachedNews_run; unfold exec;
          now rewrite Hread|].
  split; [rewrite cacheAgeMinutes_run, Hgone; reflexivity|].
  unfold exec at 1. rewrite clearCachedNews_run. cbn [snd].
  rewrite (delete_id _ _ Hgone). now destruct w1.
Qed.


(** X3: a write never fails outward.  When the storage refuses the
    value, the storage is left exactly as it was; when it accepts, the
    record of [k] is the serialised entry stamped with the reading of the
    clock.  In both cases the clock is read once and nothing else of the
    world changes. *)
Theorem write_is_silent (k : jsstring) (arts : list Article)
    (tops : list jsstring) (w : World) :
  let entry :=
    {| articles := arts; topics := tops; cachedAt := clock env (ticks w);
       entryUserId := k |} in
  let w1 := exec (setCachedNews env k arts tops) w in
  result (setCachedNews env k arts tops) w = Returned tt
  /\ (storage_accepts env (localStorage w) (getCacheKey k)
        (JSON_stringify env entry) = false ->
      w1 = tick w)
  /\ (storage_accepts env (localStorage w) (getCacheKey k)
        (JSON_stringify env entry) = true ->
      w1 = with_storage
             (<[getCacheKey k := JSON_stringify env entry]> (localStorage w))
             (tick w))
  /\ trace w1 = trace w /\ todos w1 = todos w /\ news w1 = news w.
Proof.
  intros entry w1.
  pose proof (setCachedNews_run k arts tops w) as Hrun.
  cbv zeta in Hrun. fold entry in Hrun.
  unfold w1, result, exec. rewrite Hrun.
  destruct (storage_accepts env (localStorage w) (getCacheKey k)
              (JSON_stringify env entry));
    repeat split; try reflexivity; discriminate.
Qed.

(** X4: users do not see each other: reading, writing, clearing or
    asking the remaining minutes for [k] leaves the record of any other
    user as it is. *)
Theorem users_isolated (k k' : jsstring) (arts : list Article)
    (tops : list jsstring) (w : World) :
  k <> k' ->
  localStorage (exec (getCachedNews env k) w) !! getCacheKey k'
  = localStorage w !! getCacheKey k'
  /\ localStorage (exec (setCachedNews env k arts tops) w) !! getCacheKey k'
     = localStorage w !! getCacheKey k'
  /\ localStorage (exec (clearCachedNews k) w) !! getCacheKey k'
     = localStorage w !! getCacheKey k'
  /\ localStorage (exec (cacheAgeMinutes env k) w) !! getCacheKey k'
     = localStorage w !! getCacheKey k'.
Proof.
  intros Hk.
  assert (Hkey : getCacheKey k <> getCacheKey k')
    by (intros H; apply Hk; now apply getCacheKey_inj).
  split; [|split; [|split]].
  - unfold exec. rewrite getCachedNews_run. unfold exec.
    rewrite readCache_run.
    destruct (localStorage w !! getCacheKey k) as [raw|]; [|reflexivity].
    destruct (truthy raw); [|reflexivity].
    destruct (JSON_parse env raw) as [e|]; [|reflexivity].
    destruct (clock env (ticks w) - cachedAt e >? CACHE_TTL_MS);
      [|reflexivity].
    simpl. now apply lookup_delete_ne.
  - unfold exec. rewrite setCachedNews_run.
    destruct (storage_accepts env (localStorage w) (getCacheKey k) _);
      [|reflexivity].
    simpl. now apply lookup_insert_ne.
  - unfold exec. rewrite clearCachedNews_run. simpl.
    now apply lookup_delete_ne.
  - unfold exec. rewrite cacheAgeMinutes_run.
    destruct (localStorage w !! getCacheKey k) as [raw|]; [|reflexivity].
    destruct (truthy raw); [|reflexivity].
    destruct (JSON_parse env raw) as [e|]; reflexivity.
Qed.

(** ** The cache key of a guest *)

Lemma encode_inj (a b : list N) :
  forallb Base64.latin1 a = true -> forallb Base64.latin1 b = true ->
  Base64.encode a = Base64.encode b -> a = b.
Proof.
  intros Ha Hb E.
  apply Base64Facts.decode_encode in Ha, Hb.
  rewrite E in Ha. congruence.
Qed.

Lemma encode_truthy (l : list N) :
  truthy l = true -> truthy (Base64.encode l) = true.
Proof. destruct l as [|a [|b [|c l]]]; [discriminate | reflexivity ..]. Qed.

Lemma fingerprint_truthy (jt dept : option jsstring) :
  truthy (fingerprint jt dept) = true.
Proof.
  unfold fingerprint. destruct (nullish jt (lit "unknown")); reflexivity.
Qed.

(** X5: two guests whose job title and department are within Latin-1 get
    the same key exactly when the texts [jobTitle|department] built from
    them are the same; so they share a cache when their fields agree, and
    also when a bar in a field makes the two texts coincide. *)
Theorem guest_keys_coincide (jt dept jt' dept' : option jsstring) :
  forallb Base64.latin1 (fingerprint jt dept) = true ->
  forallb Base64.latin1 (fingerprint jt' dept') = true ->
  (deriveUserId None jt dept = deriveUserId None jt' dept'
   <-> fingerprint jt dept = fingerprint jt' dept').
Proof.
  intros H H'.
  assert (Hk : forall j d, forallb Base64.latin1 (fingerprint j d) = true ->
                 deriveUserId None j d = Base64.encode (fingerprint j d)).
  { intros j d Hl. unfold deriveUserId. fold (fingerprint j d).
    unfold btoa. now rewrite Hl. }
  rewrite (Hk _ _ H), (Hk _ _ H'). split.
  - now apply encode_inj.
  - now intros ->.
Qed.

(** X6: the key is never the empty string, whatever the arguments. *)
Theorem deriveUserId_truthy (acct jt dept : option jsstring) :
  truthy (deriveUserId acct jt dept) = true.
Proof.
  assert (Hf : truthy match btoa (fingerprint jt dept) with
                      | Some key => key
                      | None => lit "guest"
                      end = true).
  { unfold btoa. destruct (forallb Base64.latin1 (fingerprint jt dept)).
    - apply encode_truthy, fingerprint_truthy.
    - reflexivity. }
  unfold deriveUserId. fold (fingerprint jt dept).
  destruct acct as [a|]; [|exact Hf].
  destruct (truthy a) eqn:Ha; [exact Ha | exact Hf].
Qed.

(** ** useTodos.ts, continued *)

Lemma toggleTodo_unknown (i : jsstring) (w : World) :
  find_todo i (todos w) = None -> toggleTodo env i w = (Returned tt, w).
Proof.
  unfold find_todo. intros H. unfold toggleTodo.
  unfold mbind at 1. unfold Eff_bind at 1. unfold get at 1.
  now rewrite H.
Qed.

Lemma deleteTodo_unknown (i : jsstring) (w : World) :
  find_todo i (todos w) = None -> deleteTodo env i w = (Returned tt, w).
Proof.
  unfold find_todo. intros H. unfold deleteTodo.
  unfold mbind at 1. unfold Eff_bind at 1. unfold get at 1.
  now rewrite H.
Qed.

Lemma toggleTodo_local_run (i : jsstring) (todo : TodoItem) (w : World) :
  find_todo i (todos w) = Some todo ->
  listId todo = lit "default" ->
  toggleTodo env i w = setTodos (mark i (negb (done todo))) w.
Proof.
  unfold find_todo. intros H Hl. unfold toggleTodo.
  unfold mbind at 1. unfold Eff_bind at 1. unfold get at 1.
  rewrite H, Hl. reflexivity.
Qed.

Lemma deleteTodo_local_run (i : jsstring) (todo : TodoItem) (w : World) :
  find_todo i (todos w) = Some todo ->
  listId todo = lit "default" ->
  deleteTodo env i w = setTodos (without i) w.
Proof.
  unfold find_todo. intros H Hl. unfold deleteTodo.
  unfold mbind at 1. unfold Eff_bind at 1. unfold get at 1.
  rewrite H, Hl. reflexivity.
Qed.

Lemma mark_shape (i : jsstring) (d : bool) (l : list TodoItem) :
  map (set_done false) (mark i d l) = map (set_done false) l.
Proof.
  unfold mark. rewrite map_map. apply map_ext. intros t.
  now destruct (str_eqb (id t) i).
Qed.

Lemma without_find (i : jsstring) (l : list TodoItem) :
  find_todo i (without i l) = None.
Proof.
  unfold find_todo, without. induction l as [|x l IH]; [reflexivity|].
  simpl. destruct (str_eqb (id x) i) eqn:E; simpl; [exact IH|].
  now rewrite E.
Qed.

Lemma without_unknown (i : jsstring) (l : list TodoItem) :
  find_todo i l = None -> without i l = l.
Proof.
  unfold find_todo, without. induction l as [|x l IH]; [reflexivity|].
  simpl. destruct (str_eqb (id x) i) eqn:E; [discriminate|].
  intros H. simpl. now rewrite (IH H).
Qed.

Lemma without_without (i : jsstring) (l : list TodoItem) :
  without i (without i l) = without i l.
Proof.
  unfold without. induction l as [|x l IH]; [reflexivity|].
  simpl. destruct (str_eqb (id x) i) eqn:E; simpl; [exact IH|].
  rewrite E. simpl. now rewrite IH.
Qed.

Lemma listId_dec (t : TodoItem) :
  {listId t = lit "default"} + {listId t <> lit "default"}.
Proof. apply (decide (listId t = lit "default")). Qed.

(** X7: whatever the identifier and whatever the remote service does,
    [toggleTodo] ends normally and changes nothing but [done] flags: the
    items keep their number, their order and all their other fields. *)
Theorem toggle_keeps_shape (i : jsstring) (w : World) :
  result (toggleTodo env i) w = Returned tt
  /\ map (set_done false) (todos (exec (toggleTodo env i) w))
     = map (set_done false) (todos w)
  /\ length (todos (exec (toggleTodo env i) w)) = length (todos w)
  /\ map id (todos (exec (toggleTodo env i) w)) = map id (todos w).
Proof.
  assert (H : result (toggleTodo env i) w = Returned tt
              /\ map (set_done false) (todos (exec (toggleTodo env i) w))
                 = map (set_done false) (todos w)).
  { unfold result, exec.
    destruct (find_todo i (todos w)) as [todo|] eqn:Hfind.
    - destruct (listId_dec todo) as [Hl | Hl].
      + rewrite (toggleTodo_local_run i todo w Hfind Hl), setTodos_run.
        simpl. split; [reflexivity | apply mark_shape].
      + pose proof (toggleTodo_run i todo w Hfind Hl) as Hrun.
        cbv zeta in Hrun. rewrite Hrun.
        destruct (result _ _) as [[]|].
        * simpl. split; [reflexivity|].
          rewrite updateTodoTask_todos. simpl. apply mark_shape.
        * rewrite setTodos_run. simpl. split; [reflexivity|].
          rewrite updateTodoTask_todos. simpl.
          now rewrite !mark_shape.
    - rewrite (toggleTodo_unknown i w Hfind). now split. }
  destruct H as [Hr Hs]. split; [exact Hr|]. split; [exact Hs|].
  split.
  - apply (f_equal (@length TodoItem)) in Hs. now rewrite !length_map in Hs.
  - apply (f_equal (map id)) in Hs. now rewrite !map_map in Hs.
Qed.

(** X8: an item of the local list [default] is toggled without any
    request: the only effect is the publication of the collection with
    that item's flag negated. *)
Theorem toggle_local_item (i : jsstring) (todo : TodoItem) (w : World) :
  find_todo i (todos w) = Some todo ->
  listId todo = lit "default" ->
  let w' := exec (toggleTodo env i) w in
  todos w' = mark i (negb (done todo)) (todos w)
  /\ find_todo i (todos w') = Some (set_done (negb (done todo)) todo)
  /\ trace w' = trace w ++ [EvSetTodos (mark i (negb (done todo)) (todos w))].
Proof.
  intros Hfind Hl w'. unfold w', exec.
  rewrite (toggleTodo_local_run i todo w Hfind Hl), setTodos_run. simpl.
  split; [reflexivity|]. split; [|reflexivity].
  now apply find_mark.
Qed.

(** X9: for an identifier that no item carries, [toggleTodo] and
    [deleteTodo] do nothing at all: no publication, no request. *)
Theorem unknown_id_is_ignored (i : jsstring) (w : World) :
  find_todo i (todos w) = None ->
  toggleTodo env i w = (Returned tt, w)
  /\ deleteTodo env i w = (Returned tt, w).
Proof.
  intros H. split; [now apply toggleTodo_unknown | now apply deleteTodo_unknown].
Qed.

Lemma updateTodoTask_trace (l t : jsstring) (s : TaskStatus) (w : World) :
  exists calls,
    trace (exec (import_graph env;; updateTodoTask env l t s) w)
    = trace w ++ calls
    /\ (calls = [] \/ calls = [EvUpdateTask l t s]).
Proof.
  unfold exec, mbind, Eff_bind. rewrite import_graph_run.
  destruct (import_resolves env (trace w)).
  - rewrite updateTodoTask_run.
    destruct (acquireToken env (trace w)); simpl.
    + exists [EvUpdateTask l t s]. auto.
    + exists []. rewrite app_nil_r. auto.
  - exists []. simpl. rewrite app_nil_r. auto.
Qed.

(** X10: what toggling a remote item sends: after the publication of the
    flipped collection, at most one request, the update of that task in
    its list to [completed] when the item was open and to [notStarted]
    when it was done; a second publication happens only when the call
    failed, and it is the roll-back. *)
Theorem toggle_requests (i : jsstring) (todo : TodoItem) (w : World) :
  find_todo i (todos w) = Some todo ->
  listId todo <> lit "default" ->
  let newDone := negb (done todo) in
  let w1 := exec (setTodos (mark i newDone)) w in
  let call :=
    import_graph env;;
    updateTodoTask env (listId todo) (id todo) (status_for newDone) in
  exists calls,
    (calls = []
     \/ calls = [EvUpdateTask (listId todo) (id todo)
                   (if done todo then notStarted else completed)])
    /\ trace (exec (toggleTodo env i) w)
       = trace w ++ [EvSetTodos (mark i newDone (todos w))] ++ calls
         ++ match result call w1 with
            | Returned _ => []
            | Thrown => [EvSetTodos (mark i (done todo) (todos w))]
            end.
Proof.
  intros Hfind Hl newDone w1 call.
  pose proof (toggleTodo_run i todo w Hfind Hl) as Hrun.
  cbv zeta in Hrun. fold newDone in Hrun. fold w1 in Hrun.
  fold call in Hrun.
  destruct (updateTodoTask_trace (listId todo) (id todo) (status_for newDone)
              w1) as (calls & Htr & Hcalls).
  fold call in Htr.
  assert (Hcall : todos (exec call w1) = mark i newDone (todos w)).
  { unfold call. rewrite updateTodoTask_todos. reflexivity. }
  exists calls. split.
  { destruct Hcalls as [-> | ->]; [now left | right].
    unfold status_for, newDone. now destruct (done todo). }
  unfold exec at 1. rewrite Hrun.
  destruct (result call w1) as [[]|].
  - simpl. rewrite Htr. unfold w1. simpl.
    now rewrite app_nil_r, <- !app_assoc.
  - rewrite setTodos_run. simpl. rewrite Htr, Hcall. unfold w1. simpl.
    unfold newDone. rewrite mark_mark, negb_involutive.
    now rewrite <- !app_assoc.
Qed.

(** X11: whatever the identifier and whatever the remote service does,
    [deleteTodo] ends normally, and the collection it leaves is the old
    one without the items of that identifier, or, only for a remote item
    whose deletion failed, that collection with the found item appended.
    The items with another identifier are never touched. *)
Theorem delete_outcomes (i : jsstring) (w : World) :
  let w' := exec (deleteTodo env i) w in
  result (deleteTodo env i) w = Returned tt
  /\ (todos w' = without i (todos w)
      \/ exists todo,
           find_todo i (todos w) = Some todo
           /\ listId todo <> lit "default"
           /\ todos w' = without i (todos w) ++ [todo])
  /\ find_todo i (without i (todos w)) = None
  /\ without i (todos w') = without i (todos w).
Proof.
  intros w'.
  assert (H : result (deleteTodo env i) w = Returned tt
              /\ (todos w' = without i (todos w)
                  \/ exists todo,
                       find_todo i (todos w) = Some todo
                       /\ listId todo <> lit "default"
                       /\ todos w' = without i (todos w) ++ [todo])).
  { unfold w', result, exec.
    destruct (find_todo i (todos w)) as [todo|] eqn:Hfind.
    - destruct (listId_dec todo) as [Hl | Hl].
      + rewrite (deleteTodo_local_run i todo w Hfind Hl), setTodos_run.
        simpl. split; [reflexivity | now left].
      + pose proof (deleteTodo_run i todo w Hfind Hl) as Hrun.
        cbv zeta in Hrun. rewrite Hrun.
        destruct (result _ _) as [[]|].
        * simpl. split; [reflexivity|]. left.
          rewrite deleteTodoTask_todos. reflexivity.
        * rewrite setTodos_run. simpl. split; [reflexivity|]. right.
          exists todo. split; [reflexivity|]. split; [exact Hl|].
          rewrite deleteTodoTask_todos. reflexivity.
    - rewrite (deleteTodo_unknown i w Hfind). simpl.
      split; [reflexivity|]. left. symmetry. now apply without_unknown. }
  destruct H as [Hr Hc]. split; [exact Hr|]. split; [exact Hc|].
  split; [apply without_find|].
  destruct Hc as [-> | (todo & Hfind & _ & ->)].
  - apply without_without.
  - destruct (find_some_id _ _ _ Hfind) as [_ Hid].
    unfold without at 1. rewrite List.filter_app. simpl.
    assert (E : str_eqb (id todo) i = true) by now apply str_eqb_eq.
    rewrite E. simpl. rewrite app_nil_r.
    apply without_without.
Qed.

(** ** [trim] *)

Lemma trim_start_app_last (l : jsstring) (c : N) :
  is_white_space c = false -> trim_start (l ++ [c]) = trim_start l ++ [c].
Proof.
  intros Hc. induction l as [|x l IH]; simpl.
  - now rewrite Hc.
  - destruct (is_white_space x); [exact IH | reflexivity].
Qed.

Lemma trim_start_head (s : jsstring) :
  trim_start s = []
  \/ exists c r, trim_start s = c :: r /\ is_white_space c = false.
Proof.
  induction s as [|x s IH]; simpl; [now left|].
  destruct (is_white_space x) eqn:E; [exact IH|].
  right. eauto.
Qed.

Lemma trim_start_idem (s : jsstring) :
  trim_start (trim_start s) = trim_start s.
Proof.
  destruct (trim_start_head s) as [-> | (c & r & -> & Hc)]; [reflexivity|].
  simpl. now rewrite Hc.
Qed.

Lemma trim_start_nil (s : jsstring) :
  trim_start s = [] <-> forallb is_white_space s = true.
Proof.
  induction s as [|x s IH]; simpl; [tauto|].
  destruct (is_white_space x); simpl; [exact IH|].
  split; discriminate.
Qed.

Lemma trim_nil (s : jsstring) :
  trim s = [] <-> forallb is_white_space s = true.
Proof.
  rewrite <- trim_start_nil. unfold trim. split.
  - intros H. apply (f_equal (@rev N)) in H. rewrite rev_involutive in H.
    simpl in H.
    destruct (trim_start_head s) as [E | (c & r & E & Hc)]; [exact E|].
    rewrite E in H. simpl in H. rewrite (trim_start_app_last _ _ Hc) in H.
    now destruct (trim_start (rev r)).
  - now intros ->.
Qed.

Lemma trim_idem (s : jsstring) : trim (trim s) = trim s.
Proof.
  unfold trim.
  destruct (trim_start_head s) as [-> | (c & r & -> & Hc)]; [reflexivity|].
  simpl rev at 3 5. rewrite (trim_start_app_last _ _ Hc).
  rewrite rev_app_distr. simpl.
  rewrite Hc. simpl. rewrite rev_involutive.
  rewrite (trim_start_app_last _ _ Hc), trim_start_idem.
  now rewrite rev_app_distr.
Qed.

(** ** [addTodo] and [handleAddTodo] *)

Lemma addTodo_blank_run (txt : jsstring) (w : World) :
  trim txt = [] -> addTodo env txt w = (Returned tt, w).
Proof. intros H. unfold addTodo. now rewrite H. Qed.

(** X12: a text made of white space only (the empty text too) is
    ignored by [addTodo]: nothing is requested and nothing changes. *)
Theorem addTodo_blank_ignored (txt : jsstring) (w : World) :
  forallb is_white_space txt = true ->
  addTodo env txt w = (Returned tt, w).
Proof. intros H. apply addTodo_blank_run. now apply trim_nil. Qed.

Lemma addTodo_summary (txt : jsstring) (w : World) :
  let w' := exec (addTodo env txt) w in
  result (addTodo env txt) w = Returned tt
  /\ (todos w' = todos w \/ exists item, todos w' = item :: todos w)
  /\ exists evs,
       trace w' = trace w ++ evs
       /\ Forall (addTodo_effect txt) evs
       /\ (length evs <= 3)%nat.
Proof.
  intros w'. unfold w', result, exec.
  destruct (trim txt) as [|c r] eqn:Htrim.
  - rewrite (addTodo_blank_run txt w Htrim). simpl.
    split; [reflexivity|]. split; [now left|].
    exists []. rewrite app_nil_r. repeat split; auto.
  - assert (Hne : trim txt <> []) by (rewrite Htrim; discriminate).
    pose proof (addTodo_run txt w Hne) as Hrun. cbv zeta in Hrun.
    rewrite Hrun. clear Hrun.
    unfold result, exec, mbind, Eff_bind.
    rewrite import_graph_run.
    destruct (import_resolves env (trace w)); cbn [fst snd].
    2:{ split; [reflexivity|]. split; [now left|].
        exists []. rewrite app_nil_r. repeat split; auto. }
    rewrite getTodoLists_run.
    destruct (acquireToken env (trace w)) as [tok|] eqn:Htok; cbn [fst snd].
    2:{ split; [reflexivity|]. split; [now left|].
        exists []. rewrite app_nil_r. repeat split; auto. }
    destruct (defaultListOf _) as [dl|]; cbn [fst snd].
    2:{ split; [reflexivity|]. split; [now left|].
        exists [EvGetLists]. repeat split; auto. repeat constructor. }
    rewrite createTodoTask_run. cbn [trace log].
    destruct (acquireToken env (trace w ++ [EvGetLists])); cbn [fst snd].
    2:{ split; [reflexivity|]. split; [now left|].
        exists [EvGetLists]. repeat split; auto. repeat constructor. }
    destruct (graph_create env _ (list_id dl) txt) as [nt|]; cbn [fst snd].
    + rewrite setTodos_run. cbn [fst snd todos trace log with_todos].
      split; [reflexivity|]. split; [right; eauto|].
      exists [EvGetLists; EvCreateTask (list_id dl) txt;
              EvSetTodos (created_item dl nt :: todos w)].
      split; [now rewrite <- !app_assoc|].
      split; [repeat constructor | simpl; lia].
    + split; [reflexivity|]. split; [now left|].
      exists [EvGetLists; EvCreateTask (list_id dl) txt].
      split; [cbn [trace log]; now rewrite <- !app_assoc|].
      split; [repeat constructor | simpl; lia].
Qed.

(** X13: whatever the text and whatever the remote service does,
    [addTodo] ends normally and either leaves the collection as it is or
    puts one item in front of it; the existing items are never changed.
    Its effects are at most three, each of them the read of the lists,
    the creation of a task whose title is the text as given, or the
    publication of the collection. *)
Theorem addTodo_only_prepends (txt : jsstring) (w : World) :
  let w' := exec (addTodo env txt) w in
  result (addTodo env txt) w = Returned tt
  /\ (todos w' = todos w \/ exists item, todos w' = item :: todos w)
  /\ exists evs,
       trace w' = trace w ++ evs
       /\ Forall (addTodo_effect txt) evs
       /\ (length evs <= 3)%nat.
Proof. exact (addTodo_summary txt w). Qed.

(** X14: on [Enter] with a content that is not blank, [handleAddTodo]
    hands the trimmed content to [addTodo], which does not take it for
    blank, and empties the input, whether or not the task could be
    created; the only title it can request is the trimmed content.  On
    any other key, or with a blank content, nothing happens and the
    input keeps its content. *)
Theorem handleAddTodo_clears (key title0 : jsstring) (w : World) :
  (key = lit "Enter" -> trim title0 <> [] ->
   handleAddTodo env key title0 w
   = (Returned [], exec (addTodo env (trim title0)) w)
   /\ trim (trim title0) = trim title0
   /\ forall l t,
        In (EvCreateTask l t)
          (trace (exec (handleAddTodo env key title0) w)) ->
        In (EvCreateTask l t) (trace w) \/ t = trim title0)
  /\ (key <> lit "Enter" \/ trim title0 = [] ->
      handleAddTodo env key title0 w = (Returned title0, w)).
Proof.
  split.
  - intros -> Hne.
    assert (Hrun : handleAddTodo env (lit "Enter") title0 w
                   = (Returned [], exec (addTodo env (trim title0)) w)).
    { unfold handleAddTodo. rewrite (truthy_nonempty _ Hne).
      change (str_eqb (lit "Enter") (lit "Enter") && true) with true.
      cbv iota.
      rewrite (exec_bind (addTodo env (trim title0)) _ w tt);
        [reflexivity | apply addTodo_summary]. }
    split; [exact Hrun|]. split; [apply trim_idem|].
    intros l t. unfold exec at 1. rewrite Hrun. cbn [snd].
    destruct (addTodo_summary (trim title0) w) as (_ & _ & evs & -> & Hall & _).
    rewrite in_app_iff. intros [H | H]; [now left | right].
    rewrite List.Forall_forall in Hall. exact (Hall _ H).
  - intros H. unfold handleAddTodo.
    destruct H as [H | H].
    + now rewrite (str_eqb_neq _ _ H).
    + rewrite H. now rewrite andb_false_r.
Qed.

(** ** graph.ts, continued *)

Lemma getTasksForList_tagged (l n wk : jsstring) (w : World) :
  exists found,
    result (getTasksForList env l n wk) w = Returned found
    /\ Forall (fun t => task_listId t = l /\ task_listName t = n
                        /\ task_wellknownListName t = wk) found.
Proof.
  unfold result. rewrite getTasksForList_run.
  assert (Hmap : forall gs f,
             Forall (fun t => task_listId t = l /\ task_listName t = n
                              /\ task_wellknownListName t = wk)
               (List.filter f (map (mapTask l n wk) gs))).
  { intros gs f. apply List.Forall_forall. intros t Ht.
    apply filter_In in Ht as [Ht _]. apply in_map_iff in Ht as (g & <- & _).
    now repeat split. }
  destruct (acquireToken env (trace w)); cbn [fst].
  - destruct (graph_tasks env (trace w) l NotCompleted) as [|ncs];
      [exists []; split; [reflexivity | constructor]|].
    destruct (graph_tasks env _ l RecentlyCompleted) as [|cs];
      [exists []; split; [reflexivity | constructor]|].
    eexists. split; [reflexivity|].
    apply Forall_app. split; apply Hmap.
  - exists []. split; [reflexivity | constructor].
Qed.

(** X15: a list whose tasks cannot be had gives no tasks at all and no
    error.  Without a token nothing is requested, the clock is not read
    and the world is unchanged.  With a token both requests leave; when
    either of them is rejected the result is empty, also when the other
    one brought tasks. *)
Theorem getTasksForList_all_or_nothing (l n wk : jsstring) (w : World) :
  (acquireToken env (trace w) = None ->
   getTasksForList env l n wk w = (Returned [], w))
  /\ (forall token,
        acquireToken env (trace w) = Some token ->
        exec (getTasksForList env l n wk) w = after_queries l w
        /\ (graph_tasks env (trace w) l NotCompleted = Rejected
            \/ graph_tasks env (trace w ++ [EvGetTasks l NotCompleted]) l
                 RecentlyCompleted = Rejected ->
            result (getTasksForList env l n wk) w = Returned [])).
Proof.
  split.
  - intros H. now rewrite getTasksForList_run, H.
  - intros token H. unfold exec, result.
    rewrite getTasksForList_run, H. cbn [fst snd].
    split; [reflexivity|].
    intros [-> | Hc]; [reflexivity|]. rewrite Hc.
    now destruct (graph_tasks env (trace w) l NotCompleted).
Qed.

Lemma getTodoLists_returns (w : World) :
  exists ls, result (getTodoLists env) w = Returned ls.
Proof.
  unfold result. rewrite getTodoLists_run.
  destruct (acquireToken env (trace w)); eexists; reflexivity.
Qed.

Lemma getTodoItems_shape (ls : list TodoList) (w : World) :
  result (getTodoLists env) w = Returned ls ->
  exists per,
    getTodoItems env w
    = (Returned {| tasks := concat per; lists := List.filter not_flagged ls |},
       exec (forLists env (List.filter not_flagged ls) [])
         (exec (getTodoLists env) w))
    /\ Sequential env (List.filter not_flagged ls)
         (exec (getTodoLists env) w) per
         (exec (forLists env (List.filter not_flagged ls) [])
            (exec (getTodoLists env) w)).
Proof.
  intros Hls.
  set (valid := List.filter not_flagged ls).
  set (w0 := exec (getTodoLists env) w).
  destruct (forLists_run valid [] w0) as (per & fs & Hr & Hlp & _ & Hseq & _).
  exists per. split; [|exact Hseq].
  unfold getTodoItems, try_catch.
  rewrite (exec_bind (getTodoLists env) _ w ls Hls). fold w0.
  destruct ls as [|x ls'].
  - unfold valid in *. simpl in *.
    destruct per; [reflexivity | discriminate].
  - cbn [length Nat.eqb]. fold not_flagged. fold valid.
    rewrite (exec_bind (forLists env valid []) _ w0 per Hr).
    reflexivity.
Qed.

Lemma Sequential_tagged (valid : list TodoList) (w w' : World)
    (per : list (list TodoTask)) :
  Sequential env valid w per w' ->
  Forall (fun t => exists l, In l valid /\ task_of_list l t) (concat per).
Proof.
  induction 1 as [|l rest w w' found per fetch Hres _ IH].
  - constructor.
  - simpl. apply Forall_app. split.
    + destruct (getTasksForList_tagged (list_id l) (displayName l)
                  (wellknownListName l) w) as (found' & Hres' & Htag).
      fold fetch in Hres'. rewrite Hres in Hres'. injection Hres' as <-.
      eapply List.Forall_impl; [|exact Htag].
      intros t Ht. exists l. split; [now left | exact Ht].
    + eapply List.Forall_impl; [|exact IH].
      intros t (l' & Hin & Ht). exists l'. split; [now right | exact Ht].
Qed.

(** X16: whatever the remote service does, [getTodoItems] ends normally,
    and what it returns hangs together: no returned list is the
    flagged-emails list, and every returned task carries the identifier
    and the names of one of the returned lists. *)
Theorem getTodoItems_consistent (w : World) :
  exists r,
    result (getTodoItems env) w = Returned r
    /\ Forall (fun l => wellknownListName l <> lit "flaggedEmails") (lists r)
    /\ Forall (fun t => exists l, In l (lists r) /\ task_of_list l t)
         (tasks r).
Proof.
  destruct (getTodoLists_returns w) as (ls & Hls).
  destruct (getTodoItems_shape ls w Hls) as (per & Hrun & Hseq).
  eexists. unfold result. rewrite Hrun. split; [reflexivity|].
  cbn [lists tasks]. split.
  - apply List.Forall_forall. intros l Hl.
    apply filter_In in Hl as [_ Hl]. unfold not_flagged in Hl.
    apply negb_true_iff in Hl. unfold str_eqb in Hl.
    now apply bool_decide_eq_false in Hl.
  - exact (Sequential_tagged _ _ _ _ Hseq).
Qed.

(** X17: when the lists cannot be read (no token, a failed request, a
    body without [value], or no list at all), [getTodoItems] returns no
    task and no list, and asks for no tasks and makes no pause: its only
    possible effect is the read of the lists. *)
Theorem getTodoItems_without_lists (w : World) :
  acquireToken env (trace w) = None
  \/ graph_lists env (trace w) = None
  \/ graph_lists env (trace w) = Some None
  \/ graph_lists env (trace w) = Some (Some []) ->
  result (getTodoItems env) w = Returned {| tasks := []; lists := [] |}
  /\ (trace (exec (getTodoItems env) w) = trace w
      \/ trace (exec (getTodoItems env) w) = trace w ++ [EvGetLists]).
Proof.
  intros H.
  assert (Hls : getTodoLists env w = (Returned [], w)
                \/ getTodoLists env w = (Returned [], log EvGetLists w)).
  { rewrite getTodoLists_run.
    destruct (acquireToken env (trace w)); [right | now left].
    destruct H as [H | [-> | [-> | ->]]]; [discriminate | reflexivity ..]. }
  unfold result, exec, getTodoItems, try_catch, mbind, Eff_bind.
  destruct Hls as [-> | ->]; cbn; auto.
Qed.

(** ** useNewsData.ts, continued *)

Lemma generateTopicsAndFetch_unfold (p : UserProfile)
    (uid : option jsstring) (w : World) :
  let k := nullish uid (userId w) in
  generateTopicsAndFetch env p uid w =
  match result (getCachedNews env k) w with
  | Returned (Some c) =>
      if (0 <? length (articles c))%nat
      then (setNews (articles c);; setLoading false)
             (exec (getCachedNews env k) w)
      else liveFetch env p k (exec (getCachedNews env k) w)
  | Returned None => liveFetch env p k (exec (getCachedNews env k) w)
  | Thrown => (Thrown, exec (getCachedNews env k) w)
  end.
Proof.
  intros k. unfold generateTopicsAndFetch.
  unfold mbind at 1. unfold Eff_bind at 1. unfold get at 1.
  fold k. cbv beta iota zeta.
  unfold mbind at 1. unfold Eff_bind at 1.
  unfold result, exec.
  destruct (getCachedNews env k w) as [[[c|]|] wc]; cbn [fst snd];
    try reflexivity.
  destruct (0 <? length (articles c))%nat; reflexivity.
Qed.

(** What the live part does, end by end. *)
Lemma liveFetch_run (p : UserProfile) (k : jsstring) (w : World) :
  let w' := exec (liveFetch env p k) w in
  result (liveFetch env p k) w = Returned tt
  /\ loading w' = false
  /\ todos w' = todos w
  /\ userId w' = userId w
  /\ trace w' = trace w ++ live_trace p (live_end env p (trace w))
  /\ match live_end env p (trace w) with
     | TopicsFailed =>
         apiError w' = Some msg_ai /\ news w' = news w
         /\ localStorage w' = localStorage w /\ ticks w' = ticks w
     | NoTopics =>
         apiError w' = None /\ news w' = news w
         /\ localStorage w' = localStorage w /\ ticks w' = ticks w
     | NewsFailed _ =>
         apiError w' = Some msg_backend /\ news w' = news w
         /\ localStorage w' = localStorage w /\ ticks w' = ticks w
     | NoNews _ =>
         apiError w' = None /\ news w' = news w
         /\ localStorage w' = localStorage w /\ ticks w' = ticks w
     | Published tops arts =>
         let entry :=
           {| articles := arts; topics := tops;
              cachedAt := clock env (ticks w); entryUserId := k |} in
         apiError w' = None /\ news w' = arts
         /\ ticks w' = S (ticks w)
         /\ localStorage w'
            = if storage_accepts env (localStorage w) (getCacheKey k)
                   (JSON_stringify env entry)
              then <[getCacheKey k := JSON_stringify env entry]>
                     (localStorage w)
              else localStorage w
     end.
Proof.
  intros w'. unfold w', live_end, live_trace.
  unfold liveFetch, generateTopics, fetchNews, getNews, request,
    setLoading, setApiError, setNews, setCachedNews, setItem, Date_now.
  fold msg_ai msg_backend.
  unfold result, exec, mbind, Eff_bind, mret, Eff_ret, get, modify, emit,
    orThrow, throw, try_catch, try_finally.
  cbn -[msg_ai msg_backend join lit].
  rewrite <- ?app_assoc. cbn -[msg_ai msg_backend join lit].
  destruct (api_topics env _ (jobTitle p) (department p)) as [d|];
    cbn -[msg_ai msg_backend join lit].
  2:{ rewrite <- ?app_assoc. repeat split. }
  destruct (nullish d []) as [|t ts]; cbn -[msg_ai msg_backend join lit].
  { rewrite <- ?app_assoc. repeat split. }
  rewrite <- ?app_assoc. cbn -[msg_ai msg_backend join lit].
  destruct (api_news env _ (join (lit ",") (t :: ts)) (jobTitle p)) as [d'|];
    cbn -[msg_ai msg_backend join lit].
  2:{ rewrite <- ?app_assoc. repeat split. }
  destruct (nullish d' []) as [|a r]; cbn -[msg_ai msg_backend join lit].
  { rewrite <- ?app_assoc. repeat split. }
  destruct (storage_accepts env (localStorage w) (getCacheKey k) _);
    cbn -[msg_ai msg_backend join lit];
    rewrite <- ?app_assoc; repeat split.
Qed.

Lemma getCachedNews_frame (k : jsstring) (w : World) :
  let wc := exec (getCachedNews env k) w in
  (exists c, result (getCachedNews env k) w = Returned c)
  /\ trace wc = trace w /\ todos wc = todos w /\ news wc = news w
  /\ loading wc = loading w /\ apiError wc = apiError w
  /\ userId wc = userId w
  /\ (localStorage wc = localStorage w
      \/ localStorage wc = delete (getCacheKey k) (localStorage w)).
Proof.
  intros wc. unfold wc, result, exec. rewrite getCachedNews_run.
  unfold result, exec. rewrite readCache_run.
  destruct (localStorage w !! getCacheKey k) as [raw|];
    [|cbn; eauto 10].
  destruct (truthy raw); [|cbn; eauto 10].
  destruct (JSON_parse env raw) as [e|]; [|cbn; eauto 10].
  destruct (clock env (ticks w) - cachedAt e >? CACHE_TTL_MS);
    cbn; eauto 10.
Qed.

Lemma publish_run (arts : list Article) (w : World) :
  (setNews arts;; setLoading false) w
  = (Returned tt,
     log (EvSetLoading false)
       (with_loading false (log (EvSetNews arts) (with_news arts w)))).
Proof. reflexivity. Qed.

Lemma hit_run (p : UserProfile) (uid : option jsstring) (raw : jsstring)
    (entry : NewsCacheEntry) (w : World) :
  localStorage w !! getCacheKey (nullish uid (userId w)) = Some raw ->
  raw <> [] ->
  JSON_parse env raw = Some entry ->
  clock env (ticks w) - cachedAt entry <= CACHE_TTL_MS ->
  articles entry <> [] ->
  generateTopicsAndFetch env p uid w
  = (setNews (articles entry);; setLoading false) (tick w).
Proof.
  intros Hraw Hne Hparse Hfresh Harts.
  pose proof (generateTopicsAndFetch_unfold p uid w) as Hun.
  cbv zeta in Hun. rewrite Hun. clear Hun.
  unfold result, exec. rewrite getCachedNews_run. unfold result, exec.
  rewrite readCache_run, Hraw, (truthy_nonempty _ Hne), Hparse.
  destruct (Z.gtb_spec (clock env (ticks w) - cachedAt entry) CACHE_TTL_MS);
    [lia|].
  cbn [fst snd entry_of].
  destruct (articles entry); [congruence | reflexivity].
Qed.


(** X19: the feed run never caches an empty feed and never touches the
    record of another user.  Afterwards the record of its user is what it
    was, or it is gone (a stale record was evicted), or it is the
    serialisation of an entry whose articles are not empty and are the
    articles just published. *)
Theorem feed_never_caches_empty (p : UserProfile) (uid : option jsstring)
    (w : World) :
  let k := nullish uid (userId w) in
  let w' := exec (generateTopicsAndFetch env p uid) w in
  (localStorage w' !! getCacheKey k = localStorage w !! getCacheKey k
   \/ localStorage w' !! getCacheKey k = None
   \/ exists e,
        localStorage w' !! getCacheKey k = Some (JSON_stringify env e)
        /\ articles e <> [] /\ news w' = articles e)
  /\ forall key, key <> getCacheKey k ->
       localStorage w' !! key = localStorage w !! key.
Proof.
  intros k w'. unfold w', exec.
  pose proof (generateTopicsAndFetch_unfold p uid w) as Hun.
  cbv zeta in Hun. rewrite Hun. clear Hun. fold k.
  destruct (getCachedNews_frame k w)
    as ((c & Hc) & _ & _ & _ & _ & _ & _ & Hst).
  rewrite Hc.
  set (wc := exec (getCachedNews env k) w) in *.
  assert (Hwc : (localStorage wc !! getCacheKey k
                 = localStorage w !! getCacheKey k
                 \/ localStorage wc !! getCacheKey k = None)
                /\ forall key, key <> getCacheKey k ->
                     localStorage wc !! key = localStorage w !! key).
  { destruct Hst as [-> | ->].
    - split; [now left | reflexivity].
    - split; [right; apply lookup_delete_eq|].
      intros key Hkey. now apply lookup_delete_ne. }
  destruct Hwc as [Hk Hother].
  assert (Hlive :
    (localStorage (liveFetch env p k wc).2 !! getCacheKey k
     = localStorage w !! getCacheKey k
     \/ localStorage (liveFetch env p k wc).2 !! getCacheKey k = None
     \/ exists e,
          localStorage (liveFetch env p k wc).2 !! getCacheKey k
          = Some (JSON_stringify env e)
          /\ articles e <> [] /\ news (liveFetch env p k wc).2 = articles e)
    /\ forall key, key <> getCacheKey k ->
         localStorage (liveFetch env p k wc).2 !! key
         = localStorage w !! key).
  { pose proof (liveFetch_run p k wc) as H. cbv zeta in H.
    destruct H as (_ & _ & _ & _ & _ & H). unfold exec in H.
    destruct (live_end env p (trace wc)) as [| |tops|tops|tops arts] eqn:He.
    1-4: destruct H as (_ & _ & -> & _);
         (split; [destruct Hk as [-> | ->]; auto | exact Hother]).
    destruct H as (_ & Hnews & _ & ->).
    assert (Harts : arts <> []).
    { unfold live_end in He.
      destruct (api_topics env _ _ _) as [d|]; [|discriminate].
      destruct (nullish d []); [discriminate|].
      destruct (api_news env _ _ _) as [d'|]; [|discriminate].
      destruct (nullish d' []); [discriminate|].
      injection He as _ <-. discriminate. }
    destruct (storage_accepts env _ _ _).
    - split.
      + right. right. eexists. rewrite lookup_insert_eq.
        split; [reflexivity|]. split; [exact Harts | exact Hnews].
      + intros key Hkey. rewrite lookup_insert_ne by congruence.
        now apply Hother.
    - split; [destruct Hk as [-> | ->]; auto | exact Hother]. }
  destruct c as [c|]; [|exact Hlive].
  destruct (articles c) as [|a r]; [exact Hlive|].
  change (0 <? length (a :: r))%nat with true. cbv iota.
  rewrite publish_run.
  cbn [fst snd localStorage log with_loading with_news].
  split; [destruct Hk as [-> | ->]; auto | exact Hother].
Qed.

(** X20: on a cache miss, when the topic service answers with no topic,
    the run settles into the silent state without stories: topics are
    requested, no news is requested, no banner is shown, the published
    news stay what they were and nothing is cached. *)
Theorem feed_no_topics (p : UserProfile) (uid : option jsstring)
    (d : option (list jsstring)) (w : World) :
  let k := nullish uid (userId w) in
  let wc := exec (getCachedNews env k) w in
  let w' := exec (generateTopicsAndFetch env p uid) w in
  result (getCachedNews env k) w = Returned None ->
  api_topics env (trace w ++ [EvSetLoading true; EvSetApiError None])
    (jobTitle p) (department p) = Some d ->
  nullish d [] = [] ->
  trace w'
  = trace w ++ [EvSetLoading true; EvSetApiError None;
                EvGenerateTopics (jobTitle p) (department p);
                EvSetLoading false]
  /\ loading w' = false /\ apiError w' = None /\ news w' = news w
  /\ localStorage w' = localStorage wc.
Proof.
  intros k wc w' Hmiss Htop Hnil. unfold w', exec.
  pose proof (generateTopicsAndFetch_unfold p uid w) as Hun.
  cbv zeta in Hun. rewrite Hun. clear Hun. fold k. rewrite Hmiss.
  fold wc.
  destruct (getCachedNews_frame k w) as (_ & Htr & _ & Hn & _).
  fold wc in Htr, Hn.
  pose proof (liveFetch_run p k wc) as H. cbv zeta in H.
  destruct H as (_ & Hl & _ & _ & Htrace & H). unfold exec in *.
  assert (He : live_end env p (trace wc) = NoTopics).
  { unfold live_end. rewrite Htr, Htop, Hnil. reflexivity. }
  rewrite He in H, Htrace. destruct H as (Ha & Hnews & Hs & _).
  rewrite Htrace, Hl, Ha, Hnews, Hs, Htr, Hn. repeat split.
Qed.

(** X21: on a cache miss, when the topic service fails, the banner of
    the AI backend is shown, the loading flag is turned off, no news is
    requested, the published news stay what they were and nothing is
    cached. *)
Theorem feed_topics_failed (p : UserProfile) (uid : option jsstring)
    (w : World) :
  let k := nullish uid (userId w) in
  let wc := exec (getCachedNews env k) w in
  let w' := exec (generateTopicsAndFetch env p uid) w in
  result (getCachedNews env k) w = Returned None ->
  api_topics env (trace w ++ [EvSetLoading true; EvSetApiError None])
    (jobTitle p) (department p) = None ->
  trace w'
  = trace w ++ [EvSetLoading true; EvSetApiError None;
                EvGenerateTopics (jobTitle p) (department p);
                EvSetApiError (Some msg_ai); EvSetLoading false]
  /\ loading w' = false /\ apiError w' = Some msg_ai /\ news w' = news w
  /\ localStorage w' = localStorage wc.
Proof.
  intros k wc w' Hmiss Htop. unfold w', exec.
  pose proof (generateTopicsAndFetch_unfold p uid w) as Hun.
  cbv zeta in Hun. rewrite Hun. clear Hun. fold k. rewrite Hmiss.
  fold wc.
  destruct (getCachedNews_frame k w) as (_ & Htr & _ & Hn & _).
  fold wc in Htr, Hn.
  pose proof (liveFetch_run p k wc) as H. cbv zeta in H.
  destruct H as (_ & Hl & _ & _ & Htrace & H). unfold exec in *.
  assert (He : live_end env p (trace wc) = TopicsFailed).
  { unfold live_end. rewrite Htr, Htop. reflexivity. }
  rewrite He in H, Htrace. destruct H as (Ha & Hnews & Hs & _).
  rewrite Htrace, Hl, Ha, Hnews, Hs, Htr, Hn. repeat split.
Qed.

(** X22: on a cache miss with topics, when the news service fails or
    answers with no article, nothing is published and nothing is cached;
    the failure shows the banner of the backend, the empty answer shows
    none.  The query is the topics joined by commas, the role is the job
    title. *)
Theorem feed_without_news (p : UserProfile) (uid : option jsstring)
    (d : option (list jsstring)) (t : jsstring) (ts : list jsstring)
    (w : World) :
  let k := nullish uid (userId w) in
  let wc := exec (getCachedNews env k) w in
  let w' := exec (generateTopicsAndFetch env p uid) w in
  let h0 := trace w ++ [EvSetLoading true; EvSetApiError None] in
  let h1 :=
    h0 ++ [EvGenerateTopics (jobTitle p) (department p);
           EvSetLoading true; EvSetApiError None] in
  let answer := api_news env h1 (join (lit ",") (t :: ts)) (jobTitle p) in
  result (getCachedNews env k) w = Returned None ->
  api_topics env h0 (jobTitle p) (department p) = Some d ->
  nullish d [] = t :: ts ->
  (answer = None ->
   trace w' = h1 ++ [EvGetNews (join (lit ",") (t :: ts)) (jobTitle p);
                     EvSetApiError (Some msg_backend); EvSetLoading false]
   /\ apiError w' = Some msg_backend /\ news w' = news w
   /\ localStorage w' = localStorage wc)
  /\ (forall d', answer = Some d' -> nullish d' [] = [] ->
      trace w' = h1 ++ [EvGetNews (join (lit ",") (t :: ts)) (jobTitle p);
                        EvSetLoading false]
      /\ apiError w' = None /\ news w' = news w
      /\ localStorage w' = localStorage wc).
Proof.
  intros k wc w' h0 h1 answer Hmiss Htop Htops.
  unfold w', exec.
  pose proof (generateTopicsAndFetch_unfold p uid w) as Hun.
  cbv zeta in Hun. rewrite Hun. clear Hun. fold k. rewrite Hmiss.
  fold wc.
  destruct (getCachedNews_frame k w) as (_ & Htr & _ & Hn & _).
  fold wc in Htr, Hn.
  pose proof (liveFetch_run p k wc) as H. cbv zeta in H.
  destruct H as (_ & _ & _ & _ & Htrace & H). unfold exec in *.
  split.
  - intros Hans.
    assert (He : live_end env p (trace wc) = NewsFailed (t :: ts)).
    { unfold live_end. rewrite Htr. fold h0. rewrite Htop, Htops.
      fold h1. fold answer. now rewrite Hans. }
    rewrite He in H, Htrace. destruct H as (Ha & Hnews & Hs & _).
    rewrite Htrace, Ha, Hnews, Hs, Htr, Hn. unfold h1, h0, live_trace.
    rewrite <- !app_assoc. repeat split.
  - intros d' Hans Hnil.
    assert (He : live_end env p (trace wc) = NoNews (t :: ts)).
    { unfold live_end. rewrite Htr. fold h0. rewrite Htop, Htops.
      fold h1. fold answer. now rewrite Hans, Hnil. }
    rewrite He in H, Htrace. destruct H as (Ha & Hnews & Hs & _).
    rewrite Htrace, Ha, Hnews, Hs, Htr, Hn. unfold h1, h0, live_trace.
    rewrite <- !app_assoc. repeat split.
Qed.

(** X23: a live run that publishes articles and can store them is
    followed by a hit: for a user without a readable record, when topics
    and articles come back, the articles are published and cached under
    the user's key with the topics; a second run, started before the
    entry is older than the TTL, publishes the same articles from the
    cache and makes no request at all.  The serialised entry is assumed
    to parse back to itself. *)
Theorem feed_live_then_hit (p : UserProfile) (uid : option jsstring)
    (d : option (list jsstring)) (t : jsstring) (ts : list jsstring)
    (d' : option (list Article)) (a : Article) (r : list Article)
    (w : World) :
  let k := nullish uid (userId w) in
  let wc := exec (getCachedNews env k) w in
  let h0 := trace w ++ [EvSetLoading true; EvSetApiError None] in
  let h1 :=
    h0 ++ [EvGenerateTopics (jobTitle p) (department p);
           EvSetLoading true; EvSetApiError None] in
  let entry :=
    {| articles := a :: r; topics := t :: ts;
       cachedAt := clock env (ticks wc); entryUserId := k |} in
  let w1 := exec (generateTopicsAndFetch env p uid) w in
  let w2 := exec (generateTopicsAndFetch env p uid) w1 in
  result (getCachedNews env k) w = Returned None ->
  api_topics env h0 (jobTitle p) (department p) = Some d ->
  nullish d [] = t :: ts ->
  api_news env h1 (join (lit ",") (t :: ts)) (jobTitle p) = Some d' ->
  nullish d' [] = a :: r ->
  storage_accepts env (localStorage wc) (getCacheKey k)
    (JSON_stringify env entry) = true ->
  JSON_stringify env entry <> [] ->
  JSON_parse env (JSON_stringify env entry) = Some entry ->
  clock env (S (ticks wc)) - clock env (ticks wc) <= CACHE_TTL_MS ->
  news w1 = a :: r
  /\ localStorage w1 !! getCacheKey k = Some (JSON_stringify env entry)
  /\ trace w1 = h1 ++ [EvGetNews (join (lit ",") (t :: ts)) (jobTitle p);
                       EvSetLoading false; EvSetNews (a :: r)]
  /\ news w2 = a :: r
  /\ trace w2 = trace w1 ++ [EvSetNews (a :: r); EvSetLoading false]
  /\ localStorage w2 = localStorage w1.
Proof.
  intros k wc h0 h1 entry w1 w2 Hmiss Htop Htops Hnews Harts Hacc Hne
    Hparse Hfresh.
  destruct (getCachedNews_frame k w) as (_ & Htr & _ & _ & _ & _ & Hu & _).
  fold wc in Htr, Hu.
  pose proof (liveFetch_run p k wc) as H. cbv zeta in H.
  destruct H as (_ & _ & _ & Hu1 & Htrace & H).
  assert (He : live_end env p (trace wc) = Published (t :: ts) (a :: r)).
  { unfold live_end. rewrite Htr. fold h0. rewrite Htop, Htops.
    fold h1. now rewrite Hnews, Harts. }
  rewrite He in H, Htrace. fold entry in H. rewrite Hacc in H.
  destruct H as (_ & Hn1 & Ht1 & Hs1).
  assert (Hw1 : w1 = exec (liveFetch env p k) wc).
  { unfold w1, exec at 1.
    pose proof (generateTopicsAndFetch_unfold p uid w) as Hun.
    cbv zeta in Hun. rewrite Hun. fold k. now rewrite Hmiss. }
  rewrite <- Hw1 in Hn1, Ht1, Hs1, Htrace, Hu1.
  assert (Hk1 : nullish uid (userId w1) = k).
  { unfold k. destruct uid; [reflexivity|]. simpl. now rewrite Hu1, Hu. }
  assert (Hrec : localStorage w1 !! getCacheKey k
                 = Some (JSON_stringify env entry)).
  { rewrite Hs1. apply lookup_insert_eq. }
  assert (Hrun2 : generateTopicsAndFetch env p uid w1
                  = (setNews (a :: r);; setLoading false) (tick w1)).
  { apply (hit_run p uid (JSON_stringify env entry) entry w1).
    - now rewrite Hk1.
    - exact Hne.
    - exact Hparse.
    - rewrite Ht1. exact Hfresh.
    - discriminate. }
  split; [exact Hn1|]. split; [exact Hrec|]. split.
  { rewrite Htrace, Htr. unfold h1, h0, live_trace.
    now rewrite <- !app_assoc. }
  assert (Hw2 : w2 = log (EvSetLoading false)
                       (with_loading false
                          (log (EvSetNews (a :: r))
                             (with_news (a :: r) (tick w1))))).
  { unfold w2, exec. now rewrite Hrun2, publish_run. }
  rewrite Hw2.
  cbn [trace news localStorage log with_loading with_news tick].
  split; [reflexivity|]. split; [now rewrite <- app_assoc | reflexivity].
Qed.

Lemma refreshNews_run (p : UserProfile) (w : World) :
  refreshNews env p w
  = liveFetch env p (userId w)
      (with_storage (delete (getCacheKey (userId w)) (localStorage w)) w).
Proof.
  unfold refreshNews.
  unfold mbind at 1. unfold Eff_bind at 1. unfold get at 1.
  cbv beta iota.
  unfold mbind at 1. unfold Eff_bind at 1.
  rewrite clearCachedNews_run. cbv beta iota.
  set (w1 := with_storage _ w).
  pose proof (generateTopicsAndFetch_unfold p (Some (userId w)) w1) as Hun.
  cbv zeta in Hun. rewrite Hun. clear Hun.
  change (nullish (Some (userId w)) (userId w1)) with (userId w).
  assert (Hread : getCachedNews env (userId w) w1 = (Returned None, w1)).
  { rewrite getCachedNews_run. unfold result, exec.
    rewrite readCache_run.
    assert (Hgone : localStorage w1 !! getCacheKey (userId w) = None)
      by apply lookup_delete_eq.
    now rewrite Hgone. }
  unfold result, exec. now rewrite Hread.
Qed.

(** X24: a refresh always goes to the services: whatever the cache
    holds, also a fresh entry, [refreshNews] ends normally, publishes
    nothing from the cache and performs the effects of the live part,
    which start with the request for topics. *)
Theorem refresh_goes_live (p : UserProfile) (w : World) :
  let w' := exec (refreshNews env p) w in
  result (refreshNews env p) w = Returned tt
  /\ loading w' = false
  /\ trace w' = trace w ++ live_trace p (live_end env p (trace w))
  /\ exists rest,
       trace w'
       = trace w ++ [EvSetLoading true; EvSetApiError None;
                     EvGenerateTopics (jobTitle p) (department p)] ++ rest.
Proof.
  intros w'. unfold w', result, exec. rewrite refreshNews_run.
  set (w1 := with_storage _ w).
  pose proof (liveFetch_run p (userId w) w1) as H. cbv zeta in H.
  destruct H as (Hr & Hl & _ & _ & Htrace & _).
  unfold result, exec in Hr, Hl, Htrace.
  change (trace w1) with (trace w) in Htrace.
  split; [exact Hr|]. split; [exact Hl|]. split; [exact Htrace|].
  rewrite Htrace. unfold live_trace. eexists. reflexivity.
Qed.

(** ** The search box *)



(** X26: [fetchSuggestions] keeps at most eight suggestions: for a query
    that is not blank and a body with suggestions, the list becomes the
    first eight of them, in their order, and the dropdown is shown; a
    blank query empties the list and hides the dropdown; a rejection or
    a body without suggestions empties the list; a response that is not
    ok changes nothing.  The cursor and the typed query are never
    changed. *)
Theorem suggestions_capped (query : jsstring) (resp : SuggestResponse)
    (st : SearchState) :
  let st' := fetchSuggestions query resp st in
  (suggestions st' = suggestions st
   \/ (length (suggestions st') <= 8)%nat)
  /\ (trim query = [] ->
      suggestions st' = [] /\ showSuggestions st' = false)
  /\ (forall l, trim query <> [] -> resp = SuggestBody (Some l) ->
      suggestions st' = firstn 8 l
      /\ length (suggestions st') = Nat.min 8 (length l)
      /\ showSuggestions st' = true)
  /\ (trim query <> [] ->
      resp = SuggestRejected \/ resp = SuggestBody None ->
      suggestions st' = [] /\ showSuggestions st' = showSuggestions st)
  /\ (trim query <> [] -> resp = SuggestNotOk -> st' = st)
  /\ activeSuggestion st' = activeSuggestion st
  /\ searchQuery st' = searchQuery st.
Proof.
  intros st'. unfold st', fetchSuggestions.
  destruct (trim query) as [|c q] eqn:Htrim; cbn [truthy negb].
  - split; [right; cbn; lia|]. split; [now split|].
    split; [congruence|]. split; [congruence|]. split; [congruence|].
    now split.
  - split.
    { destruct resp as [| |[l|]]; cbn; [right; lia | now left | | right; lia].
      right. rewrite length_firstn. lia. }
    split; [discriminate|].
    split.
    { intros l _ ->. cbn. split; [reflexivity|].
      split; [apply length_firstn | reflexivity]. }
    split.
    { intros _ [-> | ->]; now split. }
    split; [now intros _ ->|].
    destruct resp as [| |[l|]]; now split.
Qed.

(** X27: [fetchSuggestions] does not move the cursor, so a response can
    leave it past the end of the list: when the cursor is on position
    [n >= 0] and a response for a query that is not blank brings a list
    of at most [n] suggestions, the next [Enter] reads a suggestion that
    does not exist and fails. *)
Theorem short_response_breaks_enter (query : jsstring) (l : list jsstring)
    (st : SearchState) :
  trim query <> [] ->
  0 <= activeSuggestion st ->
  Z.of_nat (length l) <= activeSuggestion st ->
  handleSearch Enter (fetchSuggestions query (SuggestBody (Some l)) st)
  = None.
Proof.
  intros Hq Hge Hlen. unfold fetchSuggestions.
  rewrite (truthy_nonempty _ Hq). cbn [negb handleSearch].
  cbn [activeSuggestion with_showSuggestions with_suggestions].
  destruct (Z.leb_spec 0 (activeSuggestion st)); [|lia].
  unfold suggestion_at.
  cbn [activeSuggestion suggestions with_showSuggestions with_suggestions].
  destruct (Z.ltb_spec (activeSuggestion st) 0); [lia|].
  assert (Hnone : nth_error (firstn 8 l) (Z.to_nat (activeSuggestion st))
                  = None).
  { apply nth_error_None. rewrite length_firstn. lia. }
  now rewrite Hnone.
Qed.

End Properties.

(* ===================================================================== *)
(** * The statements on the concrete environment *)
(* ===================================================================== *)

Lemma write_then_read_witness :
  exists e,
    result (getCachedNews Runs.online Runs.u1) Runs.cached_browser
    = Returned (Some e)
    /\ e = Sample.entry_now
    /\ articles e = [Sample.article_A; Sample.article_B]
    /\ topics e = [lit "ai"; lit "ml"]
    /\ localStorage
         (exec (getCachedNews Runs.online Runs.u1) Runs.cached_browser)
       = localStorage Runs.cached_browser.
Proof.
  apply (write_then_read Runs.online Runs.u1
           [Sample.article_A; Sample.article_B] [lit "ai"; lit "ml"]
           Runs.fresh_browser Runs.cached_browser).
  - reflexivity.
  - discriminate.
  - vm_compute. reflexivity.
  - reflexivity.
  - vm_compute. discriminate.
Defined.

Lemma stale_read_evicts_witness :
  result (getCachedNews Runs.online Runs.u2) Runs.used_browser = Returned None
  /\ result (readCache Runs.online Runs.u2) Runs.used_browser
     = Returned Evicted
  /\ localStorage (exec (getCachedNews Runs.online Runs.u2) Runs.used_browser)
     !! getCacheKey Runs.u2 = None
  /\ result (readCache Runs.online Runs.u2)
       (exec (getCachedNews Runs.online Runs.u2) Runs.used_browser)
     = Returned Missing.
Proof.
  pose proof (stale_read_evicts Runs.online Runs.u2
                (Sample.stringify Sample.entry_old) Sample.entry_old
                Runs.used_browser) as H.
  cbv zeta in H.
  destruct H as (H1 & H2 & _ & H4 & _ & _ & H7 & _).
  - vm_compute. reflexivity.
  - discriminate.
  - vm_compute. reflexivity.
  - vm_compute. reflexivity.
  - exact (conj H1 (conj H2 (conj H4 H7))).
Defined.

Lemma unreadable_read_keeps_record_witness :
  result (getCachedNews Runs.online Runs.u3) Runs.used_browser = Returned None
  /\ exec (getCachedNews Runs.online Runs.u3) Runs.used_browser
     = Runs.used_browser
  /\ result (readCache Runs.online Runs.u3) Runs.used_browser
     = Returned Unreadable.
Proof.
  destruct (unreadable_read_keeps_record Runs.online Runs.u3
              (lit "{articles:") Runs.used_browser)
    as (H1 & H2 & _ & _ & H5 & _).
  - vm_compute. reflexivity.
  - vm_compute. reflexivity.
  - refine (conj H1 (conj H2 (H5 _))). discriminate.
Defined.

(** The remote update of [t1] goes through. *)
Lemma toggle_settles_witness :
  todos (exec (toggleTodo Runs.online (lit "t1")) Runs.desk)
  = [Sample.item "t1" "L-work" true; Sample.item "t-locked" "L-work" true;
     Sample.item "t3" "L-work" false; Sample.item "t0" "default" false].
Proof.
  destruct (toggle_settles Runs.online (lit "t1")
              (Sample.item "t1" "L-work" false) Runs.desk)
    as ((H & _) & _).
  - reflexivity.
  - vm_compute. discriminate.
  - vm_compute. reflexivity.
  - rewrite H. vm_compute. reflexivity.
Defined.

(** The remote update of [t-locked] is refused: the panel is what it
    was. *)
Example toggle_rolled_back :
  todos (exec (toggleTodo Runs.online (lit "t-locked")) Runs.desk)
  = Runs.panel
  /\ trace (exec (toggleTodo Runs.online (lit "t-locked")) Runs.desk)
     = [EvSetTodos (mark (lit "t-locked") false Runs.panel);
        EvUpdateTask (lit "L-work") (lit "t-locked") notStarted;
        EvSetTodos Runs.panel].
Proof. vm_compute. split; reflexivity. Qed.

(** A local item is toggled without any request. *)
Example toggle_local :
  todos (exec (toggleTodo Runs.online (lit "t0")) Runs.desk)
  = mark (lit "t0") true Runs.panel
  /\ trace (exec (toggleTodo Runs.online (lit "t0")) Runs.desk)
     = [EvSetTodos (mark (lit "t0") true Runs.panel)].
Proof. vm_compute. split; reflexivity. Qed.

Lemma addTodo_atomic_witness :
  todos (exec (addTodo Runs.online (lit "Buy milk")) Runs.desk)
  = {| id := lit "g-new"; listId := lit "L-tasks"; listName := None;
       item_wellknownListName := None; text := lit "Buy milk";
       done := false |} :: Runs.panel.
Proof.
  destruct (addTodo_atomic Runs.online (lit "Buy milk") Runs.desk)
    as (H & _).
  - vm_compute. discriminate.
  - cbv zeta in H.
    apply (H [Sample.list_flagged; Sample.list_work; Sample.list_tasks]
             Sample.list_tasks
             {| gt_id := lit "g-new"; gt_title := lit "Buy milk";
                gt_status := notStarted; gt_dueDateTime := None;
                gt_createdDateTime := lit "2024-01-01T12:00:00Z";
                gt_importance := lit "normal" |}).
    + vm_compute. reflexivity.
    + apply defaultListOf_spec. vm_compute. reflexivity.
    + vm_compute. reflexivity.
Defined.

(** Without the remote services, and for a blank text, nothing is
    added. *)
Example addTodo_offline :
  todos (exec (addTodo Runs.offline (lit "Buy milk")) Runs.desk) = Runs.panel.
Proof. vm_compute. reflexivity. Qed.

Example addTodo_blank :
  exec (addTodo Runs.online (lit "   ")) Runs.desk = Runs.desk.
Proof. vm_compute. reflexivity. Qed.

(** The remote deletion of [t-locked] is refused. *)
Lemma delete_rolls_back_witness :
  todos (exec (deleteTodo Runs.online (lit "t-locked")) Runs.desk)
  = [Sample.item "t1" "L-work" false; Sample.item "t3" "L-work" false;
     Sample.item "t0" "default" false; Sample.item "t-locked" "L-work" true].
Proof.
  destruct (delete_rolls_back Runs.online (lit "t-locked")
              (Sample.item "t-locked" "L-work" true) Runs.desk)
    as (_ & _ & _ & _ & _ & H).
  - reflexivity.
  - vm_compute. discriminate.
  - destruct H as [H _]; [vm_compute; reflexivity|].
    rewrite H. vm_compute. reflexivity.
Defined.

Example delete_confirmed :
  todos (exec (deleteTodo Runs.online (lit "t1")) Runs.desk)
  = [Sample.item "t-locked" "L-work" true; Sample.item "t3" "L-work" false;
     Sample.item "t0" "default" false].
Proof. vm_compute. reflexivity. Qed.

Lemma getTodoItems_sequential_witness :
  exists per,
    result (getTodoItems Runs.online) Runs.fresh_browser
    = Returned {| tasks := concat per;
                  lists := [Sample.list_work; Sample.list_tasks] |}
    /\ length per = 2%nat
    /\ length (concat per) = list_sum (map (@length TodoTask) per).
Proof.
  destruct (getTodoItems_sequential Runs.online
              [Sample.list_flagged; Sample.list_work; Sample.list_tasks]
              Runs.fresh_browser)
    as (per & fetched & Hres & Hlen & _ & _ & _ & Hsum & _).
  - vm_compute. reflexivity.
  - exists per. split; [exact Hres|]. split; [exact Hlen | exact Hsum].
Defined.

(** The whole run: the flagged list is not asked for, and each of the two
    other lists is followed by its pause. *)
Example getTodoItems_run :
  trace (exec (getTodoItems Runs.online) Runs.fresh_browser)
  = [EvGetLists;
     EvGetTasks (lit "L-work") NotCompleted;
     EvGetTasks (lit "L-work") RecentlyCompleted;
     EvDelay 150;
     EvGetTasks (lit "L-tasks") NotCompleted;
     EvGetTasks (lit "L-tasks") RecentlyCompleted;
     EvDelay 150]
  /\ result (getTodoItems Runs.online) Runs.fresh_browser
     = Returned
         {| tasks :=
              map (mapTask (lit "L-work") (lit "Work") (lit "none"))
                [Sample.due_today; Sample.no_due; Sample.done_today_utc]
              ++ map (mapTask (lit "L-tasks") (lit "Tasks")
                        (lit "defaultList")) [Sample.no_due];
            lists := [Sample.list_work; Sample.list_tasks] |}.
Proof. vm_compute. split; reflexivity. Qed.

Lemma cache_hit_publishes_witness :
  news (exec (generateTopicsAndFetch Runs.online
                {| jobTitle := lit "AI Engineer"; department := lit "Innovic" |}
                (Some Runs.u1)) Runs.cached_browser)
  = [Sample.article_A; Sample.article_B]
  /\ trace (exec (generateTopicsAndFetch Runs.online
                    {| jobTitle := lit "AI Engineer";
                       department := lit "Innovic" |}
                    (Some Runs.u1)) Runs.cached_browser)
     = [EvSetNews [Sample.article_A; Sample.article_B]; EvSetLoading false].
Proof.
  destruct (cache_hit_publishes Runs.online
              {| jobTitle := lit "AI Engineer"; department := lit "Innovic" |}
              (Some Runs.u1) (Sample.stringify Sample.entry_now)
              Sample.entry_now Runs.cached_browser)
    as (_ & Hnews & _ & Htrace & _).
  - vm_compute. reflexivity.
  - discriminate.
  - vm_compute. reflexivity.
  - vm_compute. discriminate.
  - discriminate.
  - exact (conj Hnews Htrace).
Defined.

(** Without a cached entry the feed is fetched and cached. *)
Example cache_miss_fetches :
  trace (exec (generateTopicsAndFetch Runs.online
                 {| jobTitle := lit "AI Engineer"; department := lit "Innovic" |}
                 (Some Runs.u1)) Runs.fresh_browser)
  = [EvSetLoading true; EvSetApiError None;
     EvGenerateTopics (lit "AI Engineer") (lit "Innovic");
     EvSetLoading true; EvSetApiError None;
     EvGetNews (lit "ai,ml") (lit "AI Engineer");
     EvSetLoading false;
     EvSetNews [Sample.article_A; Sample.article_B]]
  /\ localStorage
       (exec (generateTopicsAndFetch Runs.online
                {| jobTitle := lit "AI Engineer"; department := lit "Innovic" |}
                (Some Runs.u1)) Runs.fresh_browser)
     !! getCacheKey Runs.u1
     = Some (Sample.stringify
               {| articles := [Sample.article_A; Sample.article_B];
                  topics := [lit "ai"; lit "ml"];
                  cachedAt := Sample.sample_clock 0;
                  entryUserId := Runs.u1 |}).
Proof. vm_compute. split; reflexivity. Qed.

Lemma getTasksForList_keeps_witness :
  result (getTasksForList Runs.online (lit "L-work") (lit "Work") (lit "none"))
    Runs.fresh_browser
  = Returned
      (map (mapTask (lit "L-work") (lit "Work") (lit "none"))
         [Sample.due_today; Sample.no_due]
       ++ map (mapTask (lit "L-work") (lit "Work") (lit "none"))
            [Sample.done_today_utc]).
Proof.
  destruct (getTasksForList_keeps Runs.online (lit "L-work") (lit "Work")
              (lit "none") (lit "token")
              (Some [Sample.due_tomorrow_utc; Sample.due_today; Sample.no_due])
              (Some [Sample.done_today_utc; Sample.done_earlier])
              Runs.fresh_browser)
    as (keptN & keptC & Hres & HN & HC & _).
  - reflexivity.
  - reflexivity.
  - reflexivity.
  - rewrite Hres, HN, HC. vm_compute. reflexivity.
Defined.

(** C9, as stated, fails where the local day is not the UTC day.  At
    20:30 UTC on January 1, which is 02:00 on January 2 at UTC+05:30: a
    task that is not completed and due at 00:00 UTC on January 2, that is
    on the current local day, is dropped; a completed task created at
    12:00 UTC on January 1, that is on the local day before, is kept. *)
Lemma local_day_counterexample :
  let offset := 19800000 in
  let now := clock Runs.online (ticks Runs.fresh_browser) in
  let fromWork := mapTask (lit "L-work") (lit "Work") (lit "none") in
  let kept :=
    [fromWork Sample.due_today; fromWork Sample.no_due;
     fromWork Sample.done_today_utc] in
  result (getTasksForList Runs.online (lit "L-work") (lit "Work")
            (lit "none")) Runs.fresh_browser = Returned kept
  /\ (deciding_date Runs.online (fromWork Sample.due_tomorrow_utc)
      = Some 1704153600000
      /\ localDay offset 1704153600000 = localDay offset now
      /\ ~ In (fromWork Sample.due_tomorrow_utc) kept)
  /\ (Date_parse Runs.online
        (task_createdDateTime (fromWork Sample.done_today_utc))
      = Some 1704110400000
      /\ localDay offset 1704110400000 < localDay offset now
      /\ In (fromWork Sample.done_today_utc) kept).
Proof.
  cbv zeta. split; [vm_compute; reflexivity|].
  split; (split; [vm_compute; reflexivity|]); split.
  - vm_compute. reflexivity.
  - intros [H | [H | [H | []]]]; vm_compute in H; discriminate H.
  - vm_compute. reflexivity.
  - right. right. left. reflexivity.
Qed.

(** The record of [u2] survives a write for [u1]. *)
Lemma users_isolated_witness :
  localStorage
    (exec (setCachedNews Runs.online Runs.u1 [Sample.article_A] [lit "ai"])
       Runs.used_browser) !! getCacheKey Runs.u2
  = localStorage Runs.used_browser !! getCacheKey Runs.u2.
Proof.
  destruct (users_isolated Runs.online Runs.u1 Runs.u2 [Sample.article_A]
              [lit "ai"] Runs.used_browser) as (_ & H & _).
  - vm_compute. discriminate.
  - exact H.
Defined.

(** A bar in a field: two different guests with one key. *)
Lemma guest_keys_coincide_witness :
  deriveUserId None (Some (lit "a|b")) (Some (lit "c"))
  = deriveUserId None (Some (lit "a")) (Some (lit "b|c")).
Proof.
  apply (guest_keys_coincide (Some (lit "a|b")) (Some (lit "c"))
           (Some (lit "a")) (Some (lit "b|c"))).
  - reflexivity.
  - reflexivity.
  - reflexivity.
Defined.

Lemma toggle_local_item_witness :
  todos (exec (toggleTodo Runs.online (lit "t0")) Runs.desk)
  = mark (lit "t0") true Runs.panel
  /\ trace (exec (toggleTodo Runs.online (lit "t0")) Runs.desk)
     = [EvSetTodos (mark (lit "t0") true Runs.panel)].
Proof.
  destruct (toggle_local_item Runs.online (lit "t0")
              (Sample.item "t0" "default" false) Runs.desk)
    as (H1 & _ & H3).
  - reflexivity.
  - reflexivity.
  - exact (conj H1 H3).
Defined.

Lemma unknown_id_is_ignored_witness :
  toggleTodo Runs.online (lit "t9") Runs.desk = (Returned tt, Runs.desk)
  /\ deleteTodo Runs.online (lit "t9") Runs.desk = (Returned tt, Runs.desk).
Proof.
  apply (unknown_id_is_ignored Runs.online (lit "t9") Runs.desk).
  reflexivity.
Defined.

Lemma toggle_requests_witness :
  exists calls,
    (calls = []
     \/ calls = [EvUpdateTask (lit "L-work") (lit "t1") completed])
    /\ trace (exec (toggleTodo Runs.online (lit "t1")) Runs.desk)
       = [EvSetTodos (mark (lit "t1") true Runs.panel)] ++ calls ++ [].
Proof.
  destruct (toggle_requests Runs.online (lit "t1")
              (Sample.item "t1" "L-work" false) Runs.desk)
    as (calls & Hcalls & Htrace).
  - reflexivity.
  - vm_compute. discriminate.
  - exists calls. split; [exact Hcalls | exact Htrace].
Defined.

(** Three spaces and a tab. *)
Lemma addTodo_blank_ignored_witness :
  addTodo Runs.online (lit "   " ++ [9%N]) Runs.desk
  = (Returned tt, Runs.desk).
Proof.
  apply (addTodo_blank_ignored Runs.online (lit "   " ++ [9%N]) Runs.desk).
  reflexivity.
Defined.

Lemma getTodoItems_without_lists_witness :
  result (getTodoItems Runs.offline) Runs.fresh_browser
  = Returned {| tasks := []; lists := [] |}.
Proof.
  destruct (getTodoItems_without_lists Runs.offline Runs.fresh_browser)
    as (H & _).
  - right. left. reflexivity.
  - exact H.
Defined.

Lemma feed_no_topics_witness :
  trace (exec (generateTopicsAndFetch Outages.no_topics Outages.engineer
                 (Some Runs.u1)) Runs.fresh_browser)
  = [EvSetLoading true; EvSetApiError None;
     EvGenerateTopics (lit "AI Engineer") (lit "Innovic");
     EvSetLoading false]
  /\ apiError (exec (generateTopicsAndFetch Outages.no_topics
                       Outages.engineer (Some Runs.u1)) Runs.fresh_browser)
     = None.
Proof.
  destruct (feed_no_topics Outages.no_topics Outages.engineer (Some Runs.u1)
              (Some []) Runs.fresh_browser) as (H1 & _ & H3 & _).
  - reflexivity.
  - reflexivity.
  - reflexivity.
  - exact (conj H1 H3).
Defined.

Lemma feed_topics_failed_witness :
  apiError (exec (generateTopicsAndFetch Outages.topics_down
                    Outages.engineer (Some Runs.u1)) Runs.fresh_browser)
  = Some msg_ai
  /\ loading (exec (generateTopicsAndFetch Outages.topics_down
                      Outages.engineer (Some Runs.u1)) Runs.fresh_browser)
     = false.
Proof.
  destruct (feed_topics_failed Outages.topics_down Outages.engineer
              (Some Runs.u1) Runs.fresh_browser) as (_ & H2 & H3 & _).
  - reflexivity.
  - reflexivity.
  - exact (conj H3 H2).
Defined.

Lemma feed_without_news_witness :
  apiError (exec (generateTopicsAndFetch Outages.news_down Outages.engineer
                    (Some Runs.u1)) Runs.fresh_browser)
  = Some msg_backend
  /\ localStorage (exec (generateTopicsAndFetch Outages.news_down
                           Outages.engineer (Some Runs.u1))
                     Runs.fresh_browser)
     = localStorage Runs.fresh_browser.
Proof.
  destruct (feed_without_news Outages.news_down Outages.engineer
              (Some Runs.u1) (Some [lit "ai"; lit "ml"]) (lit "ai")
              [lit "ml"] Runs.fresh_browser) as (H & _).
  - reflexivity.
  - reflexivity.
  - reflexivity.
  - destruct H as (_ & H2 & _ & H4); [reflexivity|].
    exact (conj H2 H4).
Defined.

Lemma feed_live_then_hit_witness :
  news (exec (generateTopicsAndFetch Runs.online Outages.engineer
                (Some Runs.u1))
          (exec (generateTopicsAndFetch Runs.online Outages.engineer
                   (Some Runs.u1)) Runs.fresh_browser))
  = [Sample.article_A; Sample.article_B]
  /\ trace (exec (generateTopicsAndFetch Runs.online Outages.engineer
                    (Some Runs.u1))
              (exec (generateTopicsAndFetch Runs.online Outages.engineer
                       (Some Runs.u1)) Runs.fresh_browser))
     = trace (exec (generateTopicsAndFetch Runs.online Outages.engineer
                      (Some Runs.u1)) Runs.fresh_browser)
       ++ [EvSetNews [Sample.article_A; Sample.article_B];
           EvSetLoading false].
Proof.
  destruct (feed_live_then_hit Runs.online Outages.engineer (Some Runs.u1)
              (Some [lit "ai"; lit "ml"]) (lit "ai") [lit "ml"]
              (Some [Sample.article_A; Sample.article_B])
              Sample.article_A [Sample.article_B] Runs.fresh_browser)
    as (_ & _ & _ & H4 & H5 & _).
  - reflexivity.
  - reflexivity.
  - reflexivity.
  - reflexivity.
  - reflexivity.
  - reflexivity.
  - discriminate.
  - vm_compute. reflexivity.
  - vm_compute. discriminate.
  - exact (conj H4 H5).
Defined.


(** The cursor is on the third suggestion when a single one arrives. *)
Lemma short_response_breaks_enter_witness :
  handleSearch Enter
    (fetchSuggestions (lit "aii") (SuggestBody (Some [lit "aiims"]))
       (with_activeSuggestion 2 Outages.box))
  = None.
Proof.
  apply (short_response_breaks_enter (lit "aii") [lit "aiims"]
           (with_activeSuggestion 2 Outages.box)).
  - discriminate.
  - simpl. lia.
  - simpl. lia.
Defined.

Example cursor_run :
  pressKeys [ArrowDown; ArrowDown; ArrowDown; ArrowDown; ArrowUp]
    Outages.box = Some (with_activeSuggestion 1 Outages.box)
  /\ handleSearch Enter (with_activeSuggestion 1 Outages.box)
     = Some (with_showSuggestions false (with_activeSuggestion 1 Outages.box),
             Some (lit "ai news")).
Proof. split; reflexivity. Qed.
